(** * Keanu's Candy Store: the payment model

    A shallow embedding of [keanus_candy/models/payment.py] and the
    properties of its three classes: the base [PaymentMethod] with its
    transaction log, [CreditCard] with its mock validation and random
    outcome, and [PayPal] with its balance.

    Python values are modelled as follows.
    - [float] is IEEE binary64: Rocq's primitive [float], with the
      comparisons [<=?], [<?] and the subtraction [-] of [PrimFloat].
    - [str] is a sequence of Unicode code points: [list N].
    - An object is a record of its attributes; a method is a computation
      in the monad [M], which threads the object, reads the clock and the
      random source, emits console output and may raise.
    - The console writes every line in the methods of the three classes;
      the module [Console] has the same methods on a console whose
      encoding may refuse a line, where [print] raises. *)

From Stdlib Require Import ZArith NArith Floats String Ascii Lia DecimalString.
From stdpp Require Import base option list fin vector finite.

Local Open Scope float_scope.

(** ** Strings *)

(** A Python [str]: its code points, in order. *)
Definition str := list N.

(** A string literal of the source whose characters are all ASCII. *)
Definition lit (s : string) : str := map N_of_ascii (list_ascii_of_string s).

(** The code points [c] with [chr(c).isdecimal()]: Unicode Numeric_Type
    Decimal, as inclusive ranges (Unicode 14.0, the table of CPython
    3.11).  The first range is ['0'..'9']. *)
Definition decimal_ranges : list (N * N) :=
  [
    (48, 57); (1632, 1641); (1776, 1785); (1984, 1993); (2406, 2415);
    (2534, 2543); (2662, 2671); (2790, 2799); (2918, 2927); (3046, 3055);
    (3174, 3183); (3302, 3311); (3430, 3439); (3558, 3567); (3664, 3673);
    (3792, 3801); (3872, 3881); (4160, 4169); (4240, 4249); (6112, 6121);
    (6160, 6169); (6470, 6479); (6608, 6617); (6784, 6793); (6800, 6809);
    (6992, 7001); (7088, 7097); (7232, 7241); (7248, 7257); (42528, 42537);
    (43216, 43225); (43264, 43273); (43472, 43481); (43504, 43513);
    (43600, 43609); (44016, 44025); (65296, 65305); (66720, 66729);
    (68912, 68921); (69734, 69743); (69872, 69881); (69942, 69951);
    (70096, 70105); (70384, 70393); (70736, 70745); (70864, 70873);
    (71248, 71257); (71360, 71369); (71472, 71481); (71904, 71913);
    (72016, 72025); (72784, 72793); (73040, 73049); (73120, 73129);
    (92768, 92777); (92864, 92873); (93008, 93017); (120782, 120831);
    (123200, 123209); (123632, 123641); (125264, 125273); (130032, 130041) ]%N.

(** The code points of Numeric_Type Digit: digits that are not decimal,
    such as the superscripts two and three (178, 179) and one (185). *)
Definition digit_only_ranges : list (N * N) :=
  [
    (178, 179); (185, 185); (4969, 4977); (6618, 6618); (8304, 8304);
    (8308, 8313); (8320, 8329); (9312, 9320); (9332, 9340); (9352, 9360);
    (9450, 9450); (9461, 9469); (9471, 9471); (10102, 10110);
    (10112, 10120); (10122, 10130); (68160, 68163); (69216, 69224);
    (69714, 69722); (127232, 127242) ]%N.

Definition in_range (c : N) (r : N * N) : bool :=
  (fst r <=? c)%N && (c <=? snd r)%N.

(** [chr(c).isdecimal()] *)
Definition char_isdecimal (c : N) : bool := existsb (in_range c) decimal_ranges.

(** [chr(c).isdigit()]: Numeric_Type Decimal or Digit. *)
Definition char_isdigit (c : N) : bool :=
  char_isdecimal c || existsb (in_range c) digit_only_ranges.

(** [s.isdigit()]: at least one character, and all of them digits. *)
Definition str_isdigit (s : str) : bool :=
  match s with
  | [] => false
  | _ => forallb char_isdigit s
  end.

(** The ASCII decimal digits ['0'..'9']. *)
Definition ascii_decimal (c : N) : bool := (48 <=? c)%N && (c <=? 57)%N.

(** [s[-4:]]: the last four characters, or all of [s] when it is shorter. *)
Definition last4 (s : str) : str := drop (length s - 4) s.

(** ** Console output and other effects *)

(** What a [print] of the source shows.  A notice carries the values that
    the source interpolates into the line; [render], below, gives the
    text of the line, with amounts in their two-decimal rendering. *)
Inductive notice :=
  | CardInvalidAmount
  | CardInvalidNumber
  | CardCharging (amount : float) (ending : str) (holder : str)
  | PayPalInvalidAmount
  | PayPalInsufficient (balance : float)
  | PayPalConnecting (email : str)
  | PayPalProcessed (amount remaining : float)
  | Logged (timestamp method : str) (amount : float) (status : str).

Inductive event :=
  | Print (n : notice)
  | Sleep (seconds : Z).

Inductive exn := NotImplementedError | UnicodeEncodeError.

Inductive outcome (A : Type) :=
  | Return (a : A)
  | Raise (e : exn).
Arguments Return {A} a.
Arguments Raise {A} e.

(** What one call reads from outside the object: the string that
    [time.strftime("%Y-%m-%d %H:%M:%S")] returns, and the position that
    [random.choice] picks in its four-element list. *)
Record Env := {
  now : str;
  pick : fin 4
}.

(** ** The method monad *)

(** A method body on an object of type [S]: it reads the environment,
    and gives a result or an exception, the object as it leaves it, and
    the events it emitted, oldest first. *)
Definition M (S A : Type) : Type := Env -> S -> outcome A * S * list event.

Definition M_ret {S A} (a : A) : M S A := fun _ s => (Return a, s, []).

Definition M_bind {S A B} (f : A -> M S B) (m : M S A) : M S B :=
  fun env s =>
    match m env s with
    | (Return a, s1, out1) =>
        match f a env s1 with
        | (r, s2, out2) => (r, s2, out1 ++ out2)
        end
    | (Raise e, s1, out1) => (Raise e, s1, out1)
    end.

#[global] Instance M_mret {S} : MRet (M S) := @M_ret S.
#[global] Instance M_mbind {S} : MBind (M S) := @M_bind S.

Definition raise {S A} (e : exn) : M S A := fun _ s => (Raise e, s, []).
Definition gets {S A} (f : S -> A) : M S A := fun _ s => (Return (f s), s, []).
Definition modify {S} (f : S -> S) : M S unit := fun _ s => (Return tt, f s, []).
(** [print], on a console that writes the line; [Console.print], below,
    is [print] on a console that may refuse it. *)
Definition print {S} (n : notice) : M S unit := fun _ s => (Return tt, s, [Print n]).
Definition sleep {S} (seconds : Z) : M S unit :=
  fun _ s => (Return tt, s, [Sleep seconds]).
Definition strftime {S} : M S str := fun env s => (Return (now env), s, []).
Definition random_choice {S A} (seq : vec A 4) : M S A :=
  fun env s => (Return (seq !!! pick env), s, []).

(** Projections of a finished call. *)
Definition result {S A} (r : outcome A * S * list event) : outcome A := r.1.1.
Definition self_after {S A} (r : outcome A * S * list event) : S := r.1.2.
Definition output {S A} (r : outcome A * S * list event) : list event := r.2.

(** ** PaymentMethod *)

(** An entry of [transaction_history]: the dict with the keys
    ["method"], ["amount"], ["status"] and ["timestamp"]. *)
Record entry := {
  entry_method : str;
  entry_amount : float;
  entry_status : str;
  entry_timestamp : str
}.

(** The entry that [log_transaction] appends. *)
Local Abbreviation Entry name amount status ts :=
  {| entry_method := name; entry_amount := amount;
     entry_status := status; entry_timestamp := ts |}.

Module PaymentMethod.

Record t := {
  method_name : str;
  transaction_history : list entry
}.

Definition init (method_name : str) : t :=
  {| method_name := method_name; transaction_history := [] |}.

Definition append (e : entry) (self : t) : t :=
  {| method_name := method_name self;
     transaction_history := transaction_history self ++ [e] |}.

(** A class that extends [PaymentMethod]: its objects hold the
    attributes of the base class. *)
Class Sub (S : Type) := {
  base : S -> t;
  set_base : t -> S -> S
}.

#[global] Instance Sub_self : Sub t := {| base := id; set_base := fun b _ => b |}.

(** [self.transaction_history.append(e)] on an object of a subclass. *)
Definition logged {S} `{Sub S} (e : entry) (self : S) : S :=
  set_base (append e (base self)) self.

Definition log_transaction {S} `{Sub S} (amount : float) (status : str) : M S unit :=
  name ← gets (method_name ∘ base);
  ts ← strftime;
  let e := Entry name amount status ts in
  modify (logged e);;
  name' ← gets (method_name ∘ base);
  print (Logged (entry_timestamp e) name' amount status).

Definition process_payment (amount : float) : M t bool :=
  raise NotImplementedError.

End PaymentMethod.

(** ** CreditCard *)

Module CreditCard.

Record t := {
  super : PaymentMethod.t;
  card_number : str;
  holder_name : str;
  expiration_date : str
}.

#[global] Instance Sub_t : PaymentMethod.Sub t := {|
  PaymentMethod.base := super;
  PaymentMethod.set_base := fun b self =>
    {| super := b; card_number := card_number self;
       holder_name := holder_name self;
       expiration_date := expiration_date self |}
|}.

(** [CreditCard(card_number, holder_name, expiration_date="12/29")] *)
Definition init (card_number holder_name : str) (expiration_date : option str) : t :=
  {| super := PaymentMethod.init (lit "Credit Card");
     card_number := card_number;
     holder_name := holder_name;
     expiration_date := default (lit "12/29") expiration_date |}.

(** The list that [random.choice] draws from. *)
Definition choices : vec bool 4 := [# true; true; true; false].

Definition validate_card : M t bool :=
  cn ← gets card_number;
  mret ((Nat.eqb (length cn) 15 || Nat.eqb (length cn) 16) && str_isdigit cn).

Definition process_payment (amount : float) : M t bool :=
  if amount <=? 0 then
    print CardInvalidAmount;;
    PaymentMethod.log_transaction amount (lit "Failed");;
    mret false
  else
    valid ← validate_card;
    if negb valid then
      print CardInvalidNumber;;
      PaymentMethod.log_transaction amount (lit "Declined");;
      mret false
    else
      cn ← gets card_number;
      holder ← gets holder_name;
      print (CardCharging amount (last4 cn) holder);;
      success ← random_choice choices;
      let status := if success : bool then lit "Approved" else lit "Declined" in
      PaymentMethod.log_transaction amount status;;
      mret success.

End CreditCard.

(** ** PayPal *)

Module PayPal.

Record t := {
  super : PaymentMethod.t;
  email : str;
  balance : float
}.

#[global] Instance Sub_t : PaymentMethod.Sub t := {|
  PaymentMethod.base := super;
  PaymentMethod.set_base := fun b self =>
    {| super := b; email := email self; balance := balance self |}
|}.

Definition init (email : str) : t :=
  {| super := PaymentMethod.init (lit "PayPal");
     email := email;
     balance := 500 |}.

Definition set_balance (b : float) (self : t) : t :=
  {| super := super self; email := email self; balance := b |}.

Definition process_payment (amount : float) : M t bool :=
  if amount <=? 0 then
    print PayPalInvalidAmount;;
    PaymentMethod.log_transaction amount (lit "Failed");;
    mret false
  else
    bal ← gets balance;
    if bal <? amount then
      print (PayPalInsufficient bal);;
      PaymentMethod.log_transaction amount (lit "Insufficient Funds");;
      mret false
    else
      em ← gets email;
      print (PayPalConnecting em);;
      sleep 1;;
      modify (fun self => set_balance (balance self - amount) self);;
      remaining ← gets balance;
      print (PayPalProcessed amount remaining);;
      PaymentMethod.log_transaction amount (lit "Completed");;
      mret true.

End PayPal.

(** ** Calls from outside *)

(** [self.transaction_history], on an object of any of the classes. *)
Definition history {S} `{PaymentMethod.Sub S} (self : S) : list entry :=
  PaymentMethod.transaction_history (PaymentMethod.base self).

(** A caller that invokes a payment method once per element of [calls],
    in order, each call with its amount and what it reads from outside. *)
Fixpoint run_calls {S} (pay : float -> M S bool) (calls : list (float * Env))
    (self : S) : S :=
  match calls with
  | [] => self
  | (amount, env) :: rest => run_calls pay rest (self_after (pay amount env self))
  end.

(** The wallets a caller can obtain through the class: a fresh
    [PayPal(email)], then any calls of its two methods. *)
Inductive reachable : PayPal.t -> Prop :=
  | reachable_init (email : str) :
      reachable (PayPal.init email)
  | reachable_pay (self : PayPal.t) (amount : float) (env : Env) :
      reachable self ->
      reachable (self_after (PayPal.process_payment amount env self))
  | reachable_log (self : PayPal.t) (amount : float) (status : str) (env : Env) :
      reachable self ->
      reachable (self_after (PaymentMethod.log_transaction amount status env self)).

(** A float that is not negative: [0 <= b], or [b] is NaN. *)
Definition nonneg_or_nan (b : float) : bool := (0 <=? b) || is_nan b.

(** The same, on the specification of binary64 values. *)
Definition sf_nonneg_or_nan (x : spec_float) : Prop :=
  match x with
  | S754_nan | S754_zero _ => True
  | S754_infinity s | S754_finite s _ _ => s = false
  end.

(** ** The text on the console *)

(** [str(n)] for a natural number. *)
Definition decimal (n : N) : str := lit (NilZero.string_of_uint (N.to_uint n)).

(** [num / den] rounded to the nearest integer, ties to even. *)
Definition round_half_even (num den : Z) : Z :=
  let q := (num / den)%Z in
  match (2 * (num mod den) ?= den)%Z with
  | Lt => q
  | Gt => (q + 1)%Z
  | Eq => if Z.even q then q else (q + 1)%Z
  end.

(** The magnitude [m * 2 ^ e] in hundredths, correctly rounded. *)
Definition hundredths (m : positive) (e : Z) : N :=
  Z.to_N (if (0 <=? e)%Z then Zpos m * 2 ^ e * 100
          else round_half_even (Zpos m * 100) (2 ^ (- e)))%Z.

(** [format(x, ".2f")], the rendering of [{x:.2f}] in an f-string. *)
Definition format_2f (x : float) : str :=
  let sign (s : bool) := if s then lit "-" else [] in
  match Prim2SF x with
  | S754_nan => lit "nan"
  | S754_infinity s => sign s ++ lit "inf"
  | S754_zero s => sign s ++ lit "0.00"
  | S754_finite s m e =>
      let h := hundredths m e in
      let cents := (h mod 100)%N in
      sign s ++ decimal (h / 100) ++ lit "." ++
      (if (cents <? 10)%N then lit "0" else []) ++ decimal cents
  end.

(** The line that the source prints for a notice: the text of its
    string or f-string, with the interpolated values in place. *)
Definition render (n : notice) : str :=
  match n with
  | CardInvalidAmount =>
      lit "Invalid amount. Must be greater than zero."
  | CardInvalidNumber =>
      lit "Invalid card number. Transaction declined."
  | CardCharging amount ending holder =>
      lit "Charging $" ++ format_2f amount ++ lit " to card ending in " ++
      ending ++ lit " (" ++ holder ++ lit ")..."
  | PayPalInvalidAmount =>
      lit "Payment failed: Amount must be positive."
  | PayPalInsufficient balance =>
      lit "Payment failed: Insufficient balance ($" ++ format_2f balance ++
      lit ")."
  | PayPalConnecting email =>
      lit "Connecting to PayPal account " ++ email ++ lit "..."
  | PayPalProcessed amount remaining =>
      lit "Processed PayPal payment of $" ++ format_2f amount ++
      lit ". Remaining balance: $" ++ format_2f remaining
  | Logged timestamp method amount status =>
      lit "[" ++ timestamp ++ lit "] " ++ method ++ lit " " ++ [8212%N] ++
      lit " $" ++ format_2f amount ++ lit " " ++ [8594%N] ++ lit " " ++ status
  end.

(** The lines of an output, in the order they were printed. *)
Definition lines (out : list event) : list str :=
  omap (fun ev => match ev with Print n => Some (render n) | Sleep _ => None end) out.

(** ** A console that may refuse a line *)

Module Console.

(** [sys.stdout] as the source uses it: the code points that its
    encoding and error handler write.  A [write] of a text with any
    other code point raises UnicodeEncodeError and writes nothing of
    it.  Every console writes the line feed that ends a [print]. *)
Record t := {
  encodable : N -> bool;
  newline : encodable 10 = true
}.

Definition accepts (con : t) (text : str) : bool := forallb (encodable con) text.

(** UTF-8 with the handler [strict], the default of [sys.stdout]: every
    code point but the surrogates U+D800 to U+DFFF. *)
Definition utf8 : t := {|
  encodable := fun c => negb ((55296 <=? c)%N && (c <=? 57343)%N);
  newline := eq_refl
|}.

(** ASCII with the handler [strict]. *)
Definition ascii : t := {|
  encodable := fun c => (c <? 128)%N;
  newline := eq_refl
|}.

(** [print(line)]: the line is encoded and written, then the line feed. *)
Definition print {S} (con : t) (n : notice) : M S unit :=
  fun _ s =>
    if accepts con (render n) then (Return tt, s, [Print n])
    else (Raise UnicodeEncodeError, s, []).

Definition log_transaction {S} `{PaymentMethod.Sub S} (con : t)
    (amount : float) (status : str) : M S unit :=
  name ← gets (PaymentMethod.method_name ∘ PaymentMethod.base);
  ts ← strftime;
  let e := Entry name amount status ts in
  modify (PaymentMethod.logged e);;
  name' ← gets (PaymentMethod.method_name ∘ PaymentMethod.base);
  print con (Logged (entry_timestamp e) name' amount status).

Definition CreditCard_process_payment (con : t) (amount : float) :
    M CreditCard.t bool :=
  if amount <=? 0 then
    print con CardInvalidAmount;;
    log_transaction con amount (lit "Failed");;
    mret false
  else
    valid ← CreditCard.validate_card;
    if negb valid then
      print con CardInvalidNumber;;
      log_transaction con amount (lit "Declined");;
      mret false
    else
      cn ← gets CreditCard.card_number;
      holder ← gets CreditCard.holder_name;
      print con (CardCharging amount (last4 cn) holder);;
      success ← random_choice CreditCard.choices;
      let status := if success : bool then lit "Approved" else lit "Declined" in
      log_transaction con amount status;;
      mret success.

Definition PayPal_process_payment (con : t) (amount : float) : M PayPal.t bool :=
  if amount <=? 0 then
    print con PayPalInvalidAmount;;
    log_transaction con amount (lit "Failed");;
    mret false
  else
    bal ← gets PayPal.balance;
    if bal <? amount then
      print con (PayPalInsufficient bal);;
      log_transaction con amount (lit "Insufficient Funds");;
      mret false
    else
      em ← gets PayPal.email;
      print con (PayPalConnecting em);;
      sleep 1;;
      modify (fun self => PayPal.set_balance (PayPal.balance self - amount) self);;
      remaining ← gets PayPal.balance;
      print con (PayPalProcessed amount remaining);;
      log_transaction con amount (lit "Completed");;
      mret true.

End Console.

(** Every line of an output is one that the console writes. *)
Definition writes_all (con : Console.t) (out : list event) : bool :=
  forallb (Console.accepts con) (lines out).

(** ** Quantities of the further properties *)

(** The magnitude of a mantissa at an exponent, in units of the smallest
    subnormal. *)
Definition scale (m e : Z) : Z := (m * 2 ^ (e - emin))%Z.

(** The magnitude of a binary64 number that is finite. *)
Definition mag (x : spec_float) : Z :=
  match x with
  | S754_finite _ m e => scale (Zpos m) e
  | _ => 0%Z
  end.

(** Zero, or finite and positive. *)
Definition small (x : spec_float) : Prop :=
  match x with
  | S754_zero _ | S754_finite false _ _ => True
  | _ => False
  end.

(** A balance between zero and the opening balance of a wallet. *)
Definition funded (b : float) : bool := (0 <=? b) && (b <=? 500).

(** The pauses of a call: the arguments of its [time.sleep], in order. *)
Definition sleeps (out : list event) : list Z :=
  omap (fun ev => match ev with Sleep s => Some s | Print _ => None end) out.

(** * Facts about binary64 comparison and subtraction *)

Section SpecFloatFacts.

Lemma Prim2SF_zero : Prim2SF 0 = S754_zero false.
Proof. reflexivity. Qed.

Lemma SFcompare_antisym x y :
  SFcompare y x = option_map CompOpp (SFcompare x y).
Proof.
  destruct x as [sx|sx| |sx mx ex], y as [sy|sy| |sy my ey]; simpl;
    try reflexivity; try (destruct sx; reflexivity); try (destruct sy; reflexivity);
    try (destruct sx, sy; reflexivity).
  destruct sx, sy; simpl; try reflexivity;
    rewrite (Z.compare_antisym ey ex); destruct (ey ?= ex)%Z; simpl; try reflexivity;
    rewrite (Pos.compare_cont_antisym mx my Eq); simpl;
    try rewrite CompOpp_involutive; reflexivity.
Qed.

Lemma SFltb_zero_not_leb x :
  SFltb (S754_zero false) x = true -> SFleb x (S754_zero false) = false.
Proof. destruct x as [[]|[]| |[] m e]; cbv; congruence. Qed.

Lemma SFleb_not_ltb x y : SFleb x y = true -> SFltb y x = false.
Proof.
  unfold SFleb, SFltb. rewrite (SFcompare_antisym x y).
  destruct (SFcompare x y) as [[]|]; simpl; congruence.
Qed.

Lemma sf_nonneg_above_positive x y :
  sf_nonneg_or_nan y -> SFltb y x = true -> SFleb x (S754_zero false) = false.
Proof.
  destruct x as [[]|[]| |[] mx ex], y as [[]|[]| |[] my ey]; cbn;
    congruence.
Qed.

Lemma digits2_pos_bounds m :
  (2 ^ (Zpos (digits2_pos m) - 1) <= Zpos m < 2 ^ Zpos (digits2_pos m))%Z.
Proof.
  induction m as [m IH|m IH|]; simpl digits2_pos.
  - rewrite Pos2Z.inj_succ, Z.pow_succ_r by lia.
    replace (Z.succ (Zpos (digits2_pos m)) - 1)%Z
      with (Z.succ (Zpos (digits2_pos m) - 1)) by lia.
    rewrite Z.pow_succ_r by lia. lia.
  - rewrite Pos2Z.inj_succ, Z.pow_succ_r by lia.
    replace (Z.succ (Zpos (digits2_pos m)) - 1)%Z
      with (Z.succ (Zpos (digits2_pos m) - 1)) by lia.
    rewrite Z.pow_succ_r by lia. lia.
  - simpl. lia.
Qed.

Lemma iter_xO_pow m d : Zpos (Pos.iter xO m d) = (Zpos m * 2 ^ Zpos d)%Z.
Proof.
  induction d as [|d IH] using Pos.peano_ind.
  - simpl. lia.
  - rewrite Pos.iter_succ, Pos2Z.inj_succ, Z.pow_succ_r by lia.
    rewrite Pos2Z.inj_xO, IH. lia.
Qed.

Lemma shl_align_value m e e' :
  (e' <= e)%Z ->
  Zpos (shl_align m e e').1 = (Zpos m * 2 ^ (e - e'))%Z.
Proof.
  intros Hle. unfold shl_align.
  destruct (e' - e)%Z as [|d|d] eqn:Hd; simpl.
  - replace (e - e')%Z with 0%Z by lia. lia.
  - lia.
  - rewrite iter_xO_pow. f_equal. f_equal. lia.
Qed.

Lemma bounded_digits m e :
  bounded prec emax m e = true ->
  (Zpos (digits2_pos m) <= prec)%Z /\
  ((SpecFloat.emin prec emax < e)%Z -> Zpos (digits2_pos m) = prec).
Proof.
  unfold bounded, canonical_mantissa, fexp.
  intros [Hc _]%andb_prop. apply Z.eqb_eq in Hc. lia.
Qed.

Lemma bounded_emin m e :
  bounded prec emax m e = true -> (SpecFloat.emin prec emax <= e)%Z.
Proof.
  unfold bounded, canonical_mantissa, fexp.
  intros [Hc _]%andb_prop. apply Z.eqb_eq in Hc. lia.
Qed.

Lemma bounded_exponent_lt mx ex my ey :
  bounded prec emax mx ex = true -> bounded prec emax my ey = true ->
  (ex < ey)%Z -> (Zpos mx < Zpos my * 2 ^ (ey - ex))%Z.
Proof.
  intros Hx Hy Hlt.
  destruct (bounded_digits _ _ Hx) as [Hdx _].
  destruct (bounded_digits _ _ Hy) as [_ Hdy].
  pose proof (bounded_emin _ _ Hx) as Hemin.
  specialize (Hdy ltac:(lia)).
  pose proof (digits2_pos_bounds mx) as [_ Hmx].
  pose proof (digits2_pos_bounds my) as [Hmy _].
  rewrite Hdy in Hmy.
  assert (2 ^ Zpos (digits2_pos mx) <= 2 ^ prec)%Z by (apply Z.pow_le_mono_r; lia).
  assert (2 ^ 1 <= 2 ^ (ey - ex))%Z by (apply Z.pow_le_mono_r; lia).
  assert (2 ^ prec = 2 ^ (prec - 1) * 2 ^ 1)%Z as Hp by reflexivity.
  nia.
Qed.

Lemma binary_round_aux_sign s m e l :
  match binary_round_aux prec emax s m e l with
  | S754_nan => True
  | S754_zero s' | S754_infinity s' | S754_finite s' _ _ => s' = s
  end.
Proof.
  unfold binary_round_aux.
  destruct (shr_fexp prec emax m e l) as [mrs' e'].
  destruct (shr_fexp prec emax _ e' loc_Exact) as [mrs'' e''].
  destruct (shr_m mrs''); [reflexivity| |exact I].
  destruct (e'' <=? emax - prec)%Z; reflexivity.
Qed.

Lemma binary_normalize_nonneg d e :
  (0 <= d)%Z -> sf_nonneg_or_nan (binary_normalize prec emax d e false).
Proof.
  intros Hd. destruct d as [|p|p]; simpl; [exact I| |lia].
  unfold binary_round.
  destruct (shl_align p e _) as [mz ez].
  pose proof (binary_round_aux_sign false (Zpos mz) ez loc_Exact) as Hs.
  destruct (binary_round_aux _ _ _ _ _ _); simpl; auto.
Qed.

Lemma SFsub_nonneg x y :
  valid_binary x = true -> valid_binary y = true ->
  SFleb x (S754_zero false) = false -> SFltb y x = false ->
  sf_nonneg_or_nan (SF64sub y x).
Proof.
  intros Vx Vy Hpos Hge. unfold SFleb, SFltb in Hpos, Hge.
  destruct x as [[]|[]| |[] mx ex], y as [[]|[]| |[] my ey];
    simpl in Hpos, Hge; try congruence; try exact I; try reflexivity.
  unfold SF64sub, SFsub. cbv zeta. apply binary_normalize_nonneg.
  simpl in Vx, Vy. unfold cond_Zopp.
  rewrite !shl_align_value by lia.
  revert Hge.
  destruct (Z.compare_spec ey ex) as [Heq|Hlt|Hgt]; [| congruence |].
  - subst ey. rewrite Z.min_id, Z.sub_diag, Z.pow_0_r.
    rewrite Pos.compare_cont_spec.
    destruct (Pos.compare_spec my mx) as [Hm|Hm|Hm]; unfold Pos.switch_Eq; intros Hge; try congruence; lia.
  - intros _. rewrite Z.min_r by lia. rewrite Z.sub_diag.
    pose proof (bounded_exponent_lt _ _ _ _ Vx Vy Hgt). rewrite Z.pow_0_r. lia.
Qed.

End SpecFloatFacts.

Section FloatFacts.

Lemma float_pos_not_le (a : float) : (0 <? a) = true -> (a <=? 0) = false.
Proof.
  rewrite FloatAxioms.ltb_spec, FloatAxioms.leb_spec, Prim2SF_zero. apply SFltb_zero_not_leb.
Qed.

Lemma float_le_not_gt (a b : float) : (a <=? b) = true -> (b <? a) = false.
Proof. rewrite FloatAxioms.ltb_spec, FloatAxioms.leb_spec. apply SFleb_not_ltb. Qed.

Lemma SFeqb_refl x : x <> S754_nan -> SFeqb x x = true.
Proof.
  unfold SFeqb. destruct x as [[]|[]| |[] m e]; simpl; try congruence;
    intros _; rewrite Z.compare_refl, Pos.compare_cont_refl; reflexivity.
Qed.

Lemma nonneg_or_nan_spec (b : float) :
  nonneg_or_nan b = true <-> sf_nonneg_or_nan (Prim2SF b).
Proof.
  unfold nonneg_or_nan, is_nan.
  rewrite FloatAxioms.leb_spec, FloatAxioms.eqb_spec, Prim2SF_zero.
  rewrite orb_true_iff, negb_true_iff.
  split.
  - intros [Hle|Hnan].
    + destruct (Prim2SF b) as [[]|[]| |[] m e]; cbv in Hle; simpl; trivial; congruence.
    + destruct (Prim2SF b) as [[]|[]| |[] m e] eqn:E; simpl; trivial;
        rewrite SFeqb_refl in Hnan by congruence; congruence.
  - destruct (Prim2SF b) as [[]|[]| |[] m e]; simpl; intros H;
      try congruence; auto.
Qed.

Lemma nonneg_below_positive (a b : float) :
  nonneg_or_nan b = true -> (b <? a) = true -> (a <=? 0) = false.
Proof.
  rewrite nonneg_or_nan_spec, FloatAxioms.ltb_spec, FloatAxioms.leb_spec, Prim2SF_zero.
  apply sf_nonneg_above_positive.
Qed.

Lemma sub_nonneg_or_nan (a b : float) :
  (a <=? 0) = false -> (b <? a) = false -> nonneg_or_nan (b - a) = true.
Proof.
  rewrite nonneg_or_nan_spec, FloatAxioms.ltb_spec, FloatAxioms.leb_spec, Prim2SF_zero, sub_spec.
  apply SFsub_nonneg; apply Prim2SF_valid.
Qed.

End FloatFacts.


(** * What a call does *)

Section Runs.

Variables (amount : float) (env : Env).

Lemma CreditCard_log_run (status : str) (self : CreditCard.t) :
  let name := PaymentMethod.method_name (CreditCard.super self) in
  PaymentMethod.log_transaction amount status env self =
  (Return tt,
   PaymentMethod.logged (Entry name amount status (now env)) self,
   [Print (Logged (now env) name amount status)]).
Proof. reflexivity. Qed.

Lemma PayPal_log_run (status : str) (self : PayPal.t) :
  let name := PaymentMethod.method_name (PayPal.super self) in
  PaymentMethod.log_transaction amount status env self =
  (Return tt,
   PaymentMethod.logged (Entry name amount status (now env)) self,
   [Print (Logged (now env) name amount status)]).
Proof. reflexivity. Qed.

Lemma validate_card_run (self : CreditCard.t) :
  let cn := CreditCard.card_number self in
  CreditCard.validate_card env self =
  (Return ((Nat.eqb (length cn) 15 || Nat.eqb (length cn) 16) && str_isdigit cn),
   self, []).
Proof. reflexivity. Qed.

(** The three paths of [CreditCard.process_payment]. *)
Lemma CreditCard_process_payment_run (self : CreditCard.t) :
  let name := PaymentMethod.method_name (CreditCard.super self) in
  let cn := CreditCard.card_number self in
  let drawn : bool := CreditCard.choices !!! pick env in
  CreditCard.process_payment amount env self =
  if amount <=? 0 then
    (Return false,
     PaymentMethod.logged (Entry name amount (lit "Failed") (now env)) self,
     [Print CardInvalidAmount;
      Print (Logged (now env) name amount (lit "Failed"))])
  else if (Nat.eqb (length cn) 15 || Nat.eqb (length cn) 16) && str_isdigit cn then
    (Return drawn,
     PaymentMethod.logged
       (Entry name amount (if drawn then lit "Approved" else lit "Declined")
          (now env)) self,
     [Print (CardCharging amount (last4 cn) (CreditCard.holder_name self));
      Print (Logged (now env) name amount
               (if drawn then lit "Approved" else lit "Declined"))])
  else
    (Return false,
     PaymentMethod.logged (Entry name amount (lit "Declined") (now env)) self,
     [Print CardInvalidNumber;
      Print (Logged (now env) name amount (lit "Declined"))]).
Proof.
  cbv zeta. unfold CreditCard.process_payment.
  destruct (amount <=? 0); [reflexivity|].
  unfold mbind, M_mbind, M_bind. rewrite validate_card_run. cbv zeta.
  destruct (_ && _); reflexivity.
Qed.

(** The three paths of [PayPal.process_payment]. *)
Lemma PayPal_process_payment_run (self : PayPal.t) :
  let name := PaymentMethod.method_name (PayPal.super self) in
  let bal := PayPal.balance self in
  PayPal.process_payment amount env self =
  if amount <=? 0 then
    (Return false,
     PaymentMethod.logged (Entry name amount (lit "Failed") (now env)) self,
     [Print PayPalInvalidAmount;
      Print (Logged (now env) name amount (lit "Failed"))])
  else if bal <? amount then
    (Return false,
     PaymentMethod.logged
       (Entry name amount (lit "Insufficient Funds") (now env)) self,
     [Print (PayPalInsufficient bal);
      Print (Logged (now env) name amount (lit "Insufficient Funds"))])
  else
    (Return true,
     PaymentMethod.logged (Entry name amount (lit "Completed") (now env))
       (PayPal.set_balance (bal - amount) self),
     [Print (PayPalConnecting (PayPal.email self));
      Sleep 1;
      Print (PayPalProcessed amount (bal - amount));
      Print (Logged (now env) name amount (lit "Completed"))]).
Proof.
  cbv zeta. unfold PayPal.process_payment.
  destruct (amount <=? 0); [reflexivity|].
  unfold mbind, M_mbind, M_bind, gets at 1.
  destruct (PayPal.balance self <? amount); reflexivity.
Qed.

End Runs.

(** ** The card number check *)

Lemma forallb_true_Forall {A} (f : A -> bool) (l : list A) :
  forallb f l = true <-> Forall (fun x => f x = true) l.
Proof.
  induction l as [|x l IH]; simpl.
  - split; [constructor|reflexivity].
  - rewrite andb_true_iff, IH. split.
    + intros [Hx Hl]. constructor; assumption.
    + inversion 1; subst. split; assumption.
Qed.

Lemma Exists_false_forallb {A} (f : A -> bool) (l : list A) :
  Exists (fun x => f x = false) l -> forallb f l = false.
Proof.
  induction 1 as [x l Hx|x l _ IH]; simpl.
  - rewrite Hx. reflexivity.
  - rewrite IH. apply andb_false_r.
Qed.

Lemma str_isdigit_true (s : str) :
  str_isdigit s = true <-> s <> [] /\ Forall (fun c => char_isdigit c = true) s.
Proof.
  destruct s as [|c s].
  - simpl. split; [discriminate|]. intros [Hne _]. congruence.
  - unfold str_isdigit. rewrite forallb_true_Forall. split.
    + intros H. split; [discriminate|exact H].
    + intros [_ H]. exact H.
Qed.

(** The test of [validate_card], on the card number. *)
Lemma card_check_true (cn : str) :
  (Nat.eqb (length cn) 15 || Nat.eqb (length cn) 16) && str_isdigit cn = true <->
  (length cn = 15%nat \/ length cn = 16%nat) /\ Forall (fun c => char_isdigit c = true) cn.
Proof.
  rewrite andb_true_iff, orb_true_iff, !Nat.eqb_eq, str_isdigit_true.
  split.
  - intros [Hlen [_ Hall]]. split; assumption.
  - intros [Hlen Hall]. split; [assumption|]. split; [|assumption].
    intros ->. simpl in Hlen. lia.
Qed.

Lemma card_check_false (cn : str) :
  (length cn <> 15%nat /\ length cn <> 16%nat) \/
    Exists (fun c => char_isdigit c = false) cn ->
  (Nat.eqb (length cn) 15 || Nat.eqb (length cn) 16) && str_isdigit cn = false.
Proof.
  intros [[H15 H16]|Hex].
  - apply Nat.eqb_neq in H15, H16. rewrite H15, H16. reflexivity.
  - apply andb_false_iff. right.
    destruct cn as [|c cn]; [reflexivity|].
    unfold str_isdigit. apply Exists_false_forallb, Hex.
Qed.

Lemma in_range_above (c bound : N) (rs : list (N * N)) :
  (c < bound)%N ->
  forallb (fun r => (bound <=? fst r)%N) rs = true ->
  existsb (in_range c) rs = false.
Proof.
  intros Hc. induction rs as [|[lo hi] rs IH]; simpl; [reflexivity|].
  intros [Hlo Hrs]%andb_prop. rewrite (IH Hrs), orb_false_r.
  apply N.leb_le in Hlo. unfold in_range. simpl.
  apply andb_false_iff. left. apply N.leb_gt. lia.
Qed.

(** Among the ASCII characters, the digits of [str.isdigit] are ['0'..'9']. *)
Lemma ascii_isdigit (c : N) : (c < 128)%N -> char_isdigit c = ascii_decimal c.
Proof.
  intros Hc. unfold char_isdigit, char_isdecimal.
  rewrite (in_range_above c 128 digit_only_ranges Hc) by reflexivity.
  change decimal_ranges with ((48, 57)%N :: tl decimal_ranges).
  cbn [existsb].
  rewrite (in_range_above c 128 (tl decimal_ranges) Hc) by reflexivity.
  rewrite !orb_false_r. reflexivity.
Qed.

(** ** The balance of a wallet is never negative *)

Lemma PayPal_balance_after_payment (amount : float) (env : Env) (self : PayPal.t) :
  nonneg_or_nan (PayPal.balance self) = true ->
  nonneg_or_nan
    (PayPal.balance (self_after (PayPal.process_payment amount env self))) = true.
Proof.
  intros Hinv. rewrite PayPal_process_payment_run. cbv zeta.
  destruct (amount <=? 0) eqn:Hle; [exact Hinv|].
  destruct (PayPal.balance self <? amount) eqn:Hgt; [exact Hinv|].
  exact (sub_nonneg_or_nan _ _ Hle Hgt).
Qed.

Lemma reachable_balance (self : PayPal.t) :
  reachable self -> nonneg_or_nan (PayPal.balance self) = true.
Proof.
  induction 1 as [email|self amount env _ IH|self amount status env _ IH].
  - reflexivity.
  - apply PayPal_balance_after_payment, IH.
  - exact IH.
Qed.

(** ** The log under a sequence of calls *)

Section Calls.

Context {S : Type} `{PaymentMethod.Sub S}.
Variable pay : float -> M S bool.

(** One call appends one entry, which carries the amount and the time
    of the call. *)
Hypothesis pay_appends : forall (self : S) (amount : float) (env : Env),
  exists e : entry,
    history (self_after (pay amount env self)) = history self ++ [e] /\
    entry_amount e = amount /\ entry_timestamp e = now env.

Lemma run_calls_history (calls : list (float * Env)) (self : S) :
  exists es : list entry,
    history (run_calls pay calls self) = history self ++ es /\
    length es = length calls /\
    entry_amount <$> es = fst <$> calls /\
    entry_timestamp <$> es = (now ∘ snd) <$> calls.
Proof.
  revert self. induction calls as [|[amount env] calls IH]; intros self.
  - exists []. rewrite app_nil_r. repeat split.
  - destruct (pay_appends self amount env) as (e & He & Hamount & Htime).
    destruct (IH (self_after (pay amount env self))) as (es & Hes & Hlen & Ha & Ht).
    exists (e :: es). simpl run_calls. rewrite Hes, He, <- app_assoc.
    rewrite !fmap_cons, Hamount, Htime, Ha, Ht. simpl. rewrite Hlen.
    repeat split.
Qed.

End Calls.

Lemma CreditCard_payment_appends (self : CreditCard.t) (amount : float) (env : Env) :
  exists e : entry,
    history (self_after (CreditCard.process_payment amount env self)) =
      history self ++ [e] /\
    entry_amount e = amount /\ entry_timestamp e = now env.
Proof.
  rewrite CreditCard_process_payment_run. cbv zeta.
  destruct (amount <=? 0); [|destruct (_ && _)];
    eexists; repeat split.
Qed.

Lemma PayPal_payment_appends (self : PayPal.t) (amount : float) (env : Env) :
  exists e : entry,
    history (self_after (PayPal.process_payment amount env self)) =
      history self ++ [e] /\
    entry_amount e = amount /\ entry_timestamp e = now env.
Proof.
  rewrite PayPal_process_payment_run. cbv zeta.
  destruct (amount <=? 0); [|destruct (_ <? _)];
    eexists; repeat split.
Qed.

(** ** Calls on a console that may refuse a line *)

Ltac run_console :=
  cbv beta iota zeta delta
    [Console.CreditCard_process_payment Console.PayPal_process_payment
     Console.log_transaction Console.print CreditCard.validate_card
     mbind mret M_mbind M_bind M_mret M_ret gets modify sleep strftime
     random_choice compose negb app id
     PaymentMethod.logged PaymentMethod.append PaymentMethod.base
     PaymentMethod.set_base PaymentMethod.Sub_self CreditCard.Sub_t PayPal.Sub_t
     PaymentMethod.method_name PaymentMethod.transaction_history
     CreditCard.super CreditCard.card_number CreditCard.holder_name
     CreditCard.expiration_date
     PayPal.super PayPal.email PayPal.balance PayPal.set_balance
     entry_timestamp entry_method entry_amount entry_status
     writes_all lines omap list_omap forallb
     result self_after output fst snd].

(** Decides, line by line, whether the console writes it. *)
Ltac by_lines :=
  run_console;
  repeat match goal with
         | |- context [Console.accepts ?con ?text] =>
             destruct (Console.accepts con text); run_console
         end;
  try reflexivity.

Lemma CreditCard_on_console (con : Console.t) (amount : float) (env : Env)
    (cc : CreditCard.t) :
  let r := CreditCard.process_payment amount env cc in
  if writes_all con (output r)
  then Console.CreditCard_process_payment con amount env cc = r
  else result (Console.CreditCard_process_payment con amount env cc) =
         Raise UnicodeEncodeError.
Proof.
  cbv zeta. rewrite CreditCard_process_payment_run. cbv zeta.
  destruct cc as [[name log] cn holder exp].
  unfold Console.CreditCard_process_payment.
  destruct (amount <=? 0); [by_lines|].
  run_console.
  destruct (_ && _); [|by_lines].
  destruct (CreditCard.choices !!! pick env); by_lines.
Qed.

Lemma PayPal_on_console (con : Console.t) (amount : float) (env : Env)
    (pp : PayPal.t) :
  let r := PayPal.process_payment amount env pp in
  if writes_all con (output r)
  then Console.PayPal_process_payment con amount env pp = r
  else result (Console.PayPal_process_payment con amount env pp) =
         Raise UnicodeEncodeError.
Proof.
  cbv zeta. rewrite PayPal_process_payment_run. cbv zeta.
  destruct pp as [[name log] email bal].
  unfold Console.PayPal_process_payment.
  destruct (amount <=? 0); [by_lines|].
  run_console.
  destruct (bal <? amount); by_lines.
Qed.

Lemma log_on_console (con : Console.t) (amount : float) (status : str) (env : Env) :
  (forall self : PaymentMethod.t,
      let r := PaymentMethod.log_transaction amount status env self in
      if writes_all con (output r)
      then Console.log_transaction con amount status env self = r
      else Console.log_transaction con amount status env self =
             (Raise UnicodeEncodeError, self_after r, [])) /\
  (forall self : CreditCard.t,
      let r := PaymentMethod.log_transaction amount status env self in
      if writes_all con (output r)
      then Console.log_transaction con amount status env self = r
      else Console.log_transaction con amount status env self =
             (Raise UnicodeEncodeError, self_after r, [])) /\
  (forall self : PayPal.t,
      let r := PaymentMethod.log_transaction amount status env self in
      if writes_all con (output r)
      then Console.log_transaction con amount status env self = r
      else Console.log_transaction con amount status env self =
             (Raise UnicodeEncodeError, self_after r, [])).
Proof.
  split; [|split]; intros self; cbv zeta.
  - destruct self as [name log].
    unfold PaymentMethod.log_transaction, print. by_lines.
  - rewrite CreditCard_log_run. destruct self as [[name log] cn holder exp].
    by_lines.
  - rewrite PayPal_log_run. destruct self as [[name log] email bal]. by_lines.
Qed.

(** No console with the ASCII encoding writes a log line: the line holds
    a dash U+2014 and an arrow U+2192. *)
Lemma ascii_refuses_log_line (timestamp method : str) (amount : float) (status : str) :
  Console.accepts Console.ascii (render (Logged timestamp method amount status)) = false.
Proof.
  unfold Console.accepts, render. rewrite !forallb_app.
  change (forallb (Console.encodable Console.ascii) [8212%N]) with false.
  rewrite !andb_false_r. reflexivity.
Qed.

(** * The properties of the specification *)

(** C1.  A wallet payment of an amount that is positive and at most the
    balance returns true, leaves the balance at the old balance minus the
    amount, and appends a record with status "Completed".  With a balance
    of 500.00, paying 500.00 succeeds and leaves 0.00. *)
Theorem PayPal_payment_within_balance :
  (forall (self : PayPal.t) (amount : float) (env : Env),
      (0 <? amount) = true ->
      (amount <=? PayPal.balance self) = true ->
      let r := PayPal.process_payment amount env self in
      let name := PaymentMethod.method_name (PayPal.super self) in
      result r = Return true /\
      PayPal.balance (self_after r) = PayPal.balance self - amount /\
      history (self_after r) =
        history self ++ [Entry name amount (lit "Completed") (now env)]) /\
  (forall (self : PayPal.t) (env : Env),
      PayPal.balance self = 500 ->
      let r := PayPal.process_payment 500 env self in
      result r = Return true /\
      PayPal.balance (self_after r) = 0 /\
      entry_status <$> last (history (self_after r)) = Some (lit "Completed")).
Proof.
  assert (forall (self : PayPal.t) (amount : float) (env : Env),
      (0 <? amount) = true ->
      (amount <=? PayPal.balance self) = true ->
      let r := PayPal.process_payment amount env self in
      let name := PaymentMethod.method_name (PayPal.super self) in
      result r = Return true /\
      PayPal.balance (self_after r) = PayPal.balance self - amount /\
      history (self_after r) =
        history self ++ [Entry name amount (lit "Completed") (now env)])
    as General.
  { intros self amount env Hpos Hle. cbv zeta.
    rewrite PayPal_process_payment_run. cbv zeta.
    rewrite (float_pos_not_le _ Hpos), (float_le_not_gt _ _ Hle).
    repeat split. }
  split; [exact General|].
  intros self env Hbal.
  destruct (General self 500 env) as (Hres & Hnew & Hlog).
  - reflexivity.
  - rewrite Hbal. reflexivity.
  - cbv zeta. rewrite Hres, Hnew, Hlog, Hbal, last_snoc. repeat split.
Qed.

Lemma PayPal_payment_within_balance_witness :
  let self := PayPal.init (lit "keanu@example.com") in
  let env := {| now := lit "2024-05-01 10:00:00"; pick := 0%fin |} in
  (0 <? 120.5) = true /\
  (120.5 <=? PayPal.balance self) = true /\
  result (PayPal.process_payment 120.5 env self) = Return true /\
  PayPal.balance (self_after (PayPal.process_payment 120.5 env self)) = 379.5.
Proof.
  cbv zeta. split; [reflexivity|]. split; [reflexivity|].
  destruct (proj1 PayPal_payment_within_balance
              (PayPal.init (lit "keanu@example.com")) 120.5
              {| now := lit "2024-05-01 10:00:00"; pick := 0%fin |}
              eq_refl eq_refl) as (Hres & Hbal & _).
  split; [exact Hres|]. rewrite Hbal. reflexivity.
Defined.

(** C2.  An amount that is zero or negative is refused by both payment
    methods, whatever the other attributes of the object are: the call
    returns false and appends a record with status "Failed". *)
Theorem nonpositive_amount_fails (amount : float) (env : Env) :
  (amount <=? 0) = true ->
  (forall cc : CreditCard.t,
      let r := CreditCard.process_payment amount env cc in
      let name := PaymentMethod.method_name (CreditCard.super cc) in
      result r = Return false /\
      history (self_after r) =
        history cc ++ [Entry name amount (lit "Failed") (now env)]) /\
  (forall pp : PayPal.t,
      let r := PayPal.process_payment amount env pp in
      let name := PaymentMethod.method_name (PayPal.super pp) in
      result r = Return false /\
      history (self_after r) =
        history pp ++ [Entry name amount (lit "Failed") (now env)]).
Proof.
  intros Hle. split.
  - intros cc. cbv zeta. rewrite CreditCard_process_payment_run. cbv zeta.
    rewrite Hle. split; reflexivity.
  - intros pp. cbv zeta. rewrite PayPal_process_payment_run. cbv zeta.
    rewrite Hle. split; reflexivity.
Qed.

Lemma nonpositive_amount_fails_witness :
  let env := {| now := lit "2024-05-01 10:00:00"; pick := 0%fin |} in
  let cc := CreditCard.init (lit "4111111111111111") (lit "A. Smith") None in
  let pp := PayPal.init (lit "keanu@example.com") in
  (-3.5 <=? 0) = true /\
  result (CreditCard.process_payment (-3.5) env cc) = Return false /\
  result (PayPal.process_payment (-3.5) env pp) = Return false.
Proof.
  cbv zeta. split; [reflexivity|].
  pose proof (nonpositive_amount_fails (-3.5)
                {| now := lit "2024-05-01 10:00:00"; pick := 0%fin |} eq_refl)
    as [Hcc Hpp].
  split; [apply Hcc | apply Hpp].
Defined.

(** C3.  A positive amount on a card whose number fails the check of
    [validate_card] (its length is neither 15 nor 16, or one of its
    characters is not a digit) is declined: the call returns false and
    appends a record with status "Declined".  The 12-digit number
    "411111111111" is declined for an amount of 10.00. *)
Theorem invalid_card_declined :
  (forall (cc : CreditCard.t) (amount : float) (env : Env),
      let cn := CreditCard.card_number cc in
      (0 <? amount) = true ->
      (length cn <> 15%nat /\ length cn <> 16%nat) \/
        Exists (fun c => char_isdigit c = false) cn ->
      let r := CreditCard.process_payment amount env cc in
      let name := PaymentMethod.method_name (CreditCard.super cc) in
      result r = Return false /\
      history (self_after r) =
        history cc ++ [Entry name amount (lit "Declined") (now env)]) /\
  (forall (env : Env) (expiration_date : option str),
      let cc := CreditCard.init (lit "411111111111") (lit "A. Smith")
                  expiration_date in
      let r := CreditCard.process_payment 10 env cc in
      length (CreditCard.card_number cc) = 12%nat /\
      result r = Return false /\
      entry_status <$> last (history (self_after r)) = Some (lit "Declined")).
Proof.
  assert (forall (cc : CreditCard.t) (amount : float) (env : Env),
      let cn := CreditCard.card_number cc in
      (0 <? amount) = true ->
      (length cn <> 15%nat /\ length cn <> 16%nat) \/
        Exists (fun c => char_isdigit c = false) cn ->
      let r := CreditCard.process_payment amount env cc in
      let name := PaymentMethod.method_name (CreditCard.super cc) in
      result r = Return false /\
      history (self_after r) =
        history cc ++ [Entry name amount (lit "Declined") (now env)])
    as General.
  { intros cc amount env cn Hpos Hbad. subst cn. cbv zeta.
    rewrite CreditCard_process_payment_run. cbv zeta.
    rewrite (float_pos_not_le _ Hpos), (card_check_false _ Hbad).
    split; reflexivity. }
  split; [exact General|].
  intros env expiration_date cc r. split; [reflexivity|].
  destruct (General cc 10 env) as [Hres Hlog].
  - reflexivity.
  - left. split; discriminate.
  - subst r. rewrite Hres, Hlog, last_snoc. split; reflexivity.
Qed.

Lemma invalid_card_declined_witness :
  let cc := CreditCard.init (lit "41111111111x1111") (lit "A. Smith") None in
  let env := {| now := lit "2024-05-01 10:00:00"; pick := 0%fin |} in
  (0 <? 25) = true /\
  Exists (fun c => char_isdigit c = false) (CreditCard.card_number cc) /\
  result (CreditCard.process_payment 25 env cc) = Return false.
Proof.
  cbv zeta.
  assert (Exists (fun c => char_isdigit c = false) (lit "41111111111x1111"))
    as Hbad.
  { do 11 apply Exists_cons_tl. apply Exists_cons_hd. reflexivity. }
  split; [reflexivity|]. split; [exact Hbad|].
  exact (proj1 (proj1 invalid_card_declined
                  (CreditCard.init (lit "41111111111x1111") (lit "A. Smith") None)
                  25 {| now := lit "2024-05-01 10:00:00"; pick := 0%fin |}
                  eq_refl (or_intror Hbad))).
Defined.

(** C4.  On a wallet obtained from the class, an amount above the
    balance is refused: the call returns false, appends a record with
    status "Insufficient Funds", and leaves the balance as it was. *)
Theorem PayPal_insufficient_funds (self : PayPal.t) (amount : float) (env : Env) :
  reachable self ->
  (PayPal.balance self <? amount) = true ->
  let r := PayPal.process_payment amount env self in
  let name := PaymentMethod.method_name (PayPal.super self) in
  result r = Return false /\
  history (self_after r) =
    history self ++ [Entry name amount (lit "Insufficient Funds") (now env)] /\
  PayPal.balance (self_after r) = PayPal.balance self.
Proof.
  intros Hreach Hgt. cbv zeta.
  pose proof (nonneg_below_positive amount _ (reachable_balance _ Hreach) Hgt)
    as Hpos.
  rewrite PayPal_process_payment_run. cbv zeta.
  rewrite Hpos, Hgt. repeat split.
Qed.

Lemma PayPal_insufficient_funds_witness :
  let self := PayPal.init (lit "keanu@example.com") in
  let env := {| now := lit "2024-05-01 10:00:00"; pick := 0%fin |} in
  reachable self /\
  (PayPal.balance self <? 500.5) = true /\
  result (PayPal.process_payment 500.5 env self) = Return false /\
  PayPal.balance (self_after (PayPal.process_payment 500.5 env self)) = 500.
Proof.
  cbv zeta. split; [apply reachable_init|]. split; [reflexivity|].
  destruct (PayPal_insufficient_funds
              (PayPal.init (lit "keanu@example.com")) 500.5
              {| now := lit "2024-05-01 10:00:00"; pick := 0%fin |}
              (reachable_init _) eq_refl) as (Hres & _ & Hbal).
  split; [exact Hres|exact Hbal].
Defined.

(** C5, as the specification states it, fails: a card number of fifteen
    superscript twos (U+00B2) passes [validate_card], although none of
    its characters is a decimal digit, whether that is read as ['0'..'9']
    or as any Unicode decimal digit. *)
Lemma validate_card_accepts_superscripts :
  let cc := CreditCard.init (replicate 15 178%N) (lit "A. Smith") None in
  let cn := CreditCard.card_number cc in
  let env := {| now := lit "2024-05-01 10:00:00"; pick := 0%fin |} in
  ~ (result (CreditCard.validate_card env cc) = Return true <->
     (length cn = 15%nat \/ length cn = 16%nat) /\
     Forall (fun c => ascii_decimal c = true) cn) /\
  ~ (result (CreditCard.validate_card env cc) = Return true <->
     (length cn = 15%nat \/ length cn = 16%nat) /\
     Forall (fun c => char_isdecimal c = true) cn).
Proof.
  cbv zeta. split; intros [Honly_if _];
    destruct (Honly_if eq_refl) as [_ Hall];
    inversion Hall as [|c l Hc _]; discriminate Hc.
Qed.

(** C5, amended.  [validate_card] returns true if and only if the card
    number has exactly 15 or 16 characters and each of them is a digit in
    the sense of [str.isdigit]; it changes nothing and prints nothing.
    When the characters of the card number are ASCII, the digits are the
    decimal digits ['0'..'9']. *)
Theorem validate_card_spec (cc : CreditCard.t) (env : Env) :
  let cn := CreditCard.card_number cc in
  exists b : bool,
    CreditCard.validate_card env cc = (Return b, cc, []) /\
    (b = true <->
     (length cn = 15%nat \/ length cn = 16%nat) /\
     Forall (fun c => char_isdigit c = true) cn) /\
    (Forall (fun c => (c < 128)%N) cn ->
     (b = true <->
      (length cn = 15%nat \/ length cn = 16%nat) /\
      Forall (fun c => ascii_decimal c = true) cn)).
Proof.
  cbv zeta. eexists. split; [apply validate_card_run|]. cbv zeta.
  split; [apply card_check_true|].
  intros Hascii. rewrite card_check_true.
  assert (Forall (fun c => char_isdigit c = true) (CreditCard.card_number cc) <->
          Forall (fun c => ascii_decimal c = true) (CreditCard.card_number cc))
    as Hsame.
  { induction Hascii as [|c l Hc _ IH].
    - split; constructor.
    - split; inversion 1; subst; constructor;
        try (apply IH; assumption);
        rewrite ?ascii_isdigit in * by assumption; assumption. }
  rewrite Hsame. reflexivity.
Qed.

Lemma validate_card_spec_witness :
  let cc := CreditCard.init (lit "378282246310005") (lit "A. Smith") None in
  let env := {| now := lit "2024-05-01 10:00:00"; pick := 0%fin |} in
  Forall (fun c => (c < 128)%N) (CreditCard.card_number cc) /\
  Forall (fun c => ascii_decimal c = true) (CreditCard.card_number cc) /\
  result (CreditCard.validate_card env cc) = Return true.
Proof.
  cbv zeta.
  assert (Forall (fun c => (c < 128)%N) (lit "378282246310005")) as Hascii
    by (repeat constructor).
  assert (Forall (fun c => ascii_decimal c = true) (lit "378282246310005"))
    as Hdec by (repeat constructor).
  split; [exact Hascii|]. split; [exact Hdec|].
  destruct (validate_card_spec
              (CreditCard.init (lit "378282246310005") (lit "A. Smith") None)
              {| now := lit "2024-05-01 10:00:00"; pick := 0%fin |})
    as (b & Hrun & _ & Hb).
  rewrite Hrun. unfold result. simpl. f_equal.
  apply (Hb Hascii). split; [left; reflexivity|exact Hdec].
Defined.

(** C6.  Every call of [process_payment], on a card or on a wallet, with
    any amount and on any path, appends exactly one record to
    [transaction_history].  Under any sequence of calls the log keeps
    the records it had, in their order, followed by one record per call
    in the order of the calls. *)
Theorem one_record_per_call :
  (forall (cc : CreditCard.t) (amount : float) (env : Env),
      exists e : entry,
        history (self_after (CreditCard.process_payment amount env cc)) =
          history cc ++ [e] /\
        entry_amount e = amount /\ entry_timestamp e = now env) /\
  (forall (pp : PayPal.t) (amount : float) (env : Env),
      exists e : entry,
        history (self_after (PayPal.process_payment amount env pp)) =
          history pp ++ [e] /\
        entry_amount e = amount /\ entry_timestamp e = now env) /\
  (forall (cc : CreditCard.t) (calls : list (float * Env)),
      exists es : list entry,
        history (run_calls CreditCard.process_payment calls cc) =
          history cc ++ es /\
        length es = length calls /\
        entry_amount <$> es = fst <$> calls /\
        entry_timestamp <$> es = (now ∘ snd) <$> calls) /\
  (forall (pp : PayPal.t) (calls : list (float * Env)),
      exists es : list entry,
        history (run_calls PayPal.process_payment calls pp) =
          history pp ++ es /\
        length es = length calls /\
        entry_amount <$> es = fst <$> calls /\
        entry_timestamp <$> es = (now ∘ snd) <$> calls).
Proof.
  split; [exact CreditCard_payment_appends|].
  split; [exact PayPal_payment_appends|].
  split; intros self calls.
  - apply run_calls_history, CreditCard_payment_appends.
  - apply run_calls_history, PayPal_payment_appends.
Qed.

(** C7.  On a card that passes [validate_card], a positive amount is
    settled by the draw: [random.choice] picks one of four positions, of
    which three hold success; the call returns the outcome at the picked
    position and logs "Approved" when it is success and "Declined"
    otherwise. *)
Theorem card_outcome_is_the_draw (cc : CreditCard.t) (amount : float) (env : Env) :
  (0 <? amount) = true ->
  result (CreditCard.validate_card env cc) = Return true ->
  let r := CreditCard.process_payment amount env cc in
  let name := PaymentMethod.method_name (CreditCard.super cc) in
  let drawn : bool := CreditCard.choices !!! pick env in
  result r = Return drawn /\
  history (self_after r) =
    history cc ++
    [Entry name amount (if drawn then lit "Approved" else lit "Declined")
       (now env)] /\
  length (enum (fin 4)) = 4%nat /\
  length (filter (fun i => CreditCard.choices !!! i = true) (enum (fin 4))) = 3%nat.
Proof.
  intros Hpos Hvalid. cbv zeta.
  rewrite validate_card_run in Hvalid. cbv zeta in Hvalid.
  unfold result in Hvalid. simpl in Hvalid. injection Hvalid as Hvalid.
  rewrite CreditCard_process_payment_run. cbv zeta.
  rewrite (float_pos_not_le _ Hpos), Hvalid.
  repeat split.
Qed.

Lemma card_outcome_is_the_draw_witness :
  let cc := CreditCard.init (lit "4111111111111111") (lit "A. Smith") None in
  let declined := {| now := lit "2024-05-01 10:00:00"; pick := 3%fin |} in
  let approved := {| now := lit "2024-05-01 10:00:05"; pick := 1%fin |} in
  (0 <? 19.75) = true /\
  result (CreditCard.validate_card declined cc) = Return true /\
  result (CreditCard.process_payment 19.75 declined cc) = Return false /\
  result (CreditCard.process_payment 19.75 approved cc) = Return true.
Proof.
  cbv zeta. split; [reflexivity|]. split; [reflexivity|]. split.
  - exact (proj1 (card_outcome_is_the_draw
                    (CreditCard.init (lit "4111111111111111") (lit "A. Smith") None)
                    19.75 {| now := lit "2024-05-01 10:00:00"; pick := 3%fin |}
                    eq_refl eq_refl)).
  - exact (proj1 (card_outcome_is_the_draw
                    (CreditCard.init (lit "4111111111111111") (lit "A. Smith") None)
                    19.75 {| now := lit "2024-05-01 10:00:05"; pick := 1%fin |}
                    eq_refl eq_refl)).
Defined.

(** C8, as the specification states it, fails: [process_payment] of the
    base class is not the only operation that raises.  On a UTF-8
    console a card payment for a holder name with a lone surrogate
    raises UnicodeEncodeError at its "Charging" line, before the draw
    and before any record is logged. *)
Lemma surrogate_holder_name_raises :
  let cc := CreditCard.init (lit "4111111111111111") [55296%N] None in
  let env := {| now := lit "2024-05-01 10:00:00"; pick := 0%fin |} in
  let r := Console.CreditCard_process_payment Console.utf8 10 env cc in
  result r = Raise UnicodeEncodeError /\
  self_after r = cc /\
  output r = [] /\
  ~ (exists b : bool, result r = Return b).
Proof.
  cbv zeta. repeat split. intros [b Hb]. discriminate Hb.
Qed.

(** C8, amended.  [process_payment] of the base class raises
    NotImplementedError for every amount: it returns nothing, logs
    nothing and prints nothing.  No other operation raises
    NotImplementedError.  [validate_card] always returns.
    [log_transaction] and the two [process_payment] of the subclasses
    return when the console writes every line they print, and raise
    UnicodeEncodeError, from [print], when it refuses one. *)
Theorem only_the_base_payment_is_unimplemented :
  (forall (self : PaymentMethod.t) (amount : float) (env : Env),
      PaymentMethod.process_payment amount env self =
        (Raise NotImplementedError, self, [])) /\
  (forall (cc : CreditCard.t) (env : Env),
      exists b : bool, CreditCard.validate_card env cc = (Return b, cc, [])) /\
  (forall (con : Console.t) (cc : CreditCard.t) (amount : float) (env : Env),
      let r := Console.CreditCard_process_payment con amount env cc in
      let printed := output (CreditCard.process_payment amount env cc) in
      (writes_all con printed = true -> exists b : bool, result r = Return b) /\
      (writes_all con printed = false -> result r = Raise UnicodeEncodeError)) /\
  (forall (con : Console.t) (pp : PayPal.t) (amount : float) (env : Env),
      let r := Console.PayPal_process_payment con amount env pp in
      let printed := output (PayPal.process_payment amount env pp) in
      (writes_all con printed = true -> exists b : bool, result r = Return b) /\
      (writes_all con printed = false -> result r = Raise UnicodeEncodeError)) /\
  (forall (con : Console.t) (self : PaymentMethod.t)
          (amount : float) (status : str) (env : Env),
      let r := Console.log_transaction con amount status env self in
      let printed := output (PaymentMethod.log_transaction amount status env self) in
      (writes_all con printed = true -> result r = Return tt) /\
      (writes_all con printed = false -> result r = Raise UnicodeEncodeError)).
Proof.
  split; [reflexivity|].
  split; [intros cc env; eexists; apply validate_card_run|].
  split; [|split].
  - intros con cc amount env. cbv zeta.
    pose proof (CreditCard_on_console con amount env cc) as Hrun.
    cbv zeta in Hrun. split; intros Hlines; rewrite Hlines in Hrun.
    + rewrite Hrun, CreditCard_process_payment_run. cbv zeta.
      destruct (amount <=? 0); [|destruct (_ && _)]; eexists; reflexivity.
    + exact Hrun.
  - intros con pp amount env. cbv zeta.
    pose proof (PayPal_on_console con amount env pp) as Hrun.
    cbv zeta in Hrun. split; intros Hlines; rewrite Hlines in Hrun.
    + rewrite Hrun, PayPal_process_payment_run. cbv zeta.
      destruct (amount <=? 0); [|destruct (_ <? _)]; eexists; reflexivity.
    + exact Hrun.
  - intros con self amount status env. cbv zeta.
    pose proof (proj1 (log_on_console con amount status env) self) as Hrun.
    cbv zeta in Hrun. split; intros Hlines; rewrite Hlines in Hrun;
      rewrite Hrun; reflexivity.
Qed.

Lemma only_the_base_payment_is_unimplemented_witness :
  let env := {| now := lit "2024-05-01 10:00:00"; pick := 0%fin |} in
  let cc := CreditCard.init (lit "4111111111111111") (lit "A. Smith") None in
  let pp := PayPal.init (lit "keanu@example.com") in
  writes_all Console.utf8 (output (CreditCard.process_payment 10 env cc)) = true /\
  (exists b : bool,
      result (Console.CreditCard_process_payment Console.utf8 10 env cc) = Return b) /\
  writes_all Console.ascii (output (PayPal.process_payment 10 env pp)) = false /\
  result (Console.PayPal_process_payment Console.ascii 10 env pp) =
    Raise UnicodeEncodeError.
Proof.
  cbv zeta.
  pose proof (proj1 (proj2 (proj2 only_the_base_payment_is_unimplemented))
                Console.utf8
                (CreditCard.init (lit "4111111111111111") (lit "A. Smith") None)
                10 {| now := lit "2024-05-01 10:00:00"; pick := 0%fin |})
    as [Hreturns _].
  pose proof (proj1 (proj2 (proj2 (proj2 only_the_base_payment_is_unimplemented)))
                Console.ascii (PayPal.init (lit "keanu@example.com"))
                10 {| now := lit "2024-05-01 10:00:00"; pick := 0%fin |})
    as [_ Hraises].
  split; [reflexivity|]. split; [exact (Hreturns eq_refl)|].
  split; [reflexivity|exact (Hraises eq_refl)].
Defined.

(** C9.  The expiration date does not influence a card payment: two
    cards that agree on every attribute but [expiration_date], charged
    the same amount with the same clock and the same draw, return the
    same result, print the same lines and end with the same log; each
    keeps its own expiration date. *)
Theorem expiration_date_noninterference
    (cc1 cc2 : CreditCard.t) (amount : float) (env : Env) :
  CreditCard.super cc1 = CreditCard.super cc2 ->
  CreditCard.card_number cc1 = CreditCard.card_number cc2 ->
  CreditCard.holder_name cc1 = CreditCard.holder_name cc2 ->
  let r1 := CreditCard.process_payment amount env cc1 in
  let r2 := CreditCard.process_payment amount env cc2 in
  result r1 = result r2 /\
  output r1 = output r2 /\
  history (self_after r1) = history (self_after r2) /\
  entry_status <$> last (history (self_after r1)) =
    entry_status <$> last (history (self_after r2)) /\
  CreditCard.expiration_date (self_after r1) = CreditCard.expiration_date cc1 /\
  CreditCard.expiration_date (self_after r2) = CreditCard.expiration_date cc2.
Proof.
  intros Hsuper Hnumber Hholder. cbv zeta.
  rewrite !CreditCard_process_payment_run. cbv zeta.
  rewrite <- Hsuper, <- Hnumber, <- Hholder.
  destruct (amount <=? 0); [|destruct (_ && _)];
    unfold history; simpl; rewrite <- ?Hsuper; repeat split.
Qed.

Lemma expiration_date_noninterference_witness :
  let cc1 := CreditCard.init (lit "4111111111111111") (lit "A. Smith") None in
  let cc2 := CreditCard.init (lit "4111111111111111") (lit "A. Smith")
               (Some (lit "01/20")) in
  let env := {| now := lit "2024-05-01 10:00:00"; pick := 2%fin |} in
  CreditCard.expiration_date cc1 <> CreditCard.expiration_date cc2 /\
  result (CreditCard.process_payment 42 env cc1) =
    result (CreditCard.process_payment 42 env cc2) /\
  history (self_after (CreditCard.process_payment 42 env cc1)) =
    history (self_after (CreditCard.process_payment 42 env cc2)).
Proof.
  cbv zeta. split; [discriminate|].
  destruct (expiration_date_noninterference
              (CreditCard.init (lit "4111111111111111") (lit "A. Smith") None)
              (CreditCard.init (lit "4111111111111111") (lit "A. Smith")
                 (Some (lit "01/20")))
              42 {| now := lit "2024-05-01 10:00:00"; pick := 2%fin |}
              eq_refl eq_refl eq_refl) as (Hres & _ & Hlog & _).
  split; [exact Hres|exact Hlog].
Defined.

(** C10.  A card payment changes no attribute of the card but
    [transaction_history].  A wallet payment changes no attribute of the
    wallet but [transaction_history] and, only when it succeeds,
    [balance]: a call that returns false, as every call with an amount
    that is zero or negative does, leaves the balance as it was. *)
Theorem process_payment_frame :
  (forall (cc : CreditCard.t) (amount : float) (env : Env),
      let cc' := self_after (CreditCard.process_payment amount env cc) in
      CreditCard.card_number cc' = CreditCard.card_number cc /\
      CreditCard.holder_name cc' = CreditCard.holder_name cc /\
      CreditCard.expiration_date cc' = CreditCard.expiration_date cc /\
      PaymentMethod.method_name (CreditCard.super cc') =
        PaymentMethod.method_name (CreditCard.super cc)) /\
  (forall (pp : PayPal.t) (amount : float) (env : Env),
      let r := PayPal.process_payment amount env pp in
      let pp' := self_after r in
      PayPal.email pp' = PayPal.email pp /\
      PaymentMethod.method_name (PayPal.super pp') =
        PaymentMethod.method_name (PayPal.super pp) /\
      (result r = Return false -> PayPal.balance pp' = PayPal.balance pp) /\
      ((amount <=? 0) = true ->
       result r = Return false /\ PayPal.balance pp' = PayPal.balance pp)).
Proof.
  split.
  - intros cc amount env. cbv zeta.
    rewrite CreditCard_process_payment_run. cbv zeta.
    destruct (amount <=? 0); [|destruct (_ && _)]; repeat split.
  - intros pp amount env. cbv zeta.
    rewrite PayPal_process_payment_run. cbv zeta.
    destruct (amount <=? 0); [|destruct (_ <? _)];
      repeat split; try reflexivity; try discriminate.
Qed.

Lemma process_payment_frame_witness :
  let pp := PayPal.init (lit "keanu@example.com") in
  let env := {| now := lit "2024-05-01 10:00:00"; pick := 0%fin |} in
  (0 <=? 0) = true /\
  result (PayPal.process_payment 0 env pp) = Return false /\
  PayPal.balance (self_after (PayPal.process_payment 0 env pp)) = 500 /\
  result (PayPal.process_payment 750 env pp) = Return false /\
  PayPal.balance (self_after (PayPal.process_payment 750 env pp)) = 500.
Proof.
  cbv zeta. split; [reflexivity|].
  destruct (proj2 process_payment_frame
              (PayPal.init (lit "keanu@example.com")) 0
              {| now := lit "2024-05-01 10:00:00"; pick := 0%fin |})
    as (_ & _ & _ & Hzero).
  destruct (proj2 process_payment_frame
              (PayPal.init (lit "keanu@example.com")) 750
              {| now := lit "2024-05-01 10:00:00"; pick := 0%fin |})
    as (_ & _ & Hfalse & _).
  destruct (Hzero eq_refl) as [Hres Hbal].
  split; [exact Hres|]. split; [exact Hbal|].
  split; [reflexivity|]. exact (Hfalse eq_refl).
Defined.

(** * Remarks on amounts outside the claims *)

(** The balance is a binary64 number and [-] rounds: an amount far below
    the precision of the balance is paid on the "Completed" path and
    leaves the stored balance at the value it had. *)
Remark PayPal_tiny_amount_is_absorbed (env : Env) :
  let r := PayPal.process_payment 0x1p-60 env (PayPal.init (lit "keanu@example.com")) in
  result r = Return true /\ PayPal.balance (self_after r) = 500.
Proof. split; reflexivity. Qed.

(** NaN is neither [<= 0] nor above any balance: it is paid on the
    "Completed" path and the balance becomes NaN, after which no amount
    is above the balance. *)
Remark PayPal_nan_amount_completes (env : Env) :
  let r := PayPal.process_payment nan env (PayPal.init (lit "keanu@example.com")) in
  result r = Return true /\
  PayPal.balance (self_after r) = nan /\
  forall amount : float, (PayPal.balance (self_after r) <? amount) = false.
Proof.
  split; [reflexivity|]. split; [reflexivity|].
  intros amount. cbv zeta.
  change (PayPal.balance _) with nan.
  rewrite FloatAxioms.ltb_spec. reflexivity.
Qed.

(** Why C4 speaks of the wallets obtained from the class: were the
    [balance] attribute overwritten from outside with a negative number,
    a negative amount above it would meet the first test and be logged
    as "Failed". *)
Remark PayPal_negative_balance_set_from_outside (env : Env) :
  let self := PayPal.set_balance (-10) (PayPal.init (lit "keanu@example.com")) in
  let r := PayPal.process_payment (-5) env self in
  (PayPal.balance self <? -5) = true /\
  result r = Return false /\
  entry_status <$> last (history (self_after r)) = Some (lit "Failed").
Proof. repeat split. Qed.

(** * Rounding in the subtraction of binary64 numbers *)

Section Rounding.

Local Open Scope Z_scope.

Lemma iter_pos_steps {A} (f : A -> A) (P : Z -> A -> Prop) :
  (forall j x, 0 <= j -> P j x -> P (j + 1) (f x)) ->
  forall k j x, 0 <= j -> P j x -> P (j + Zpos k) (SpecFloat.iter_pos f k x).
Proof.
  intros Hstep. induction k as [k IH|k IH|]; intros j x Hj Hx; simpl.
  - replace (j + Zpos k~1) with ((j + 1 + Zpos k) + Zpos k) by lia.
    apply IH; [lia|]. apply IH; [lia|]. apply Hstep; assumption.
  - replace (j + Zpos k~0) with ((j + Zpos k) + Zpos k) by lia.
    apply IH; [lia|]. apply IH; assumption.
  - apply Hstep; assumption.
Qed.

(** [shifted m0 j mrs]: the record [mrs] holds [m0] shifted right by [j]
    bits, and its two flags are clear when no bit was lost. *)
Definition shifted (m0 j : Z) (mrs : shr_record) : Prop :=
  shr_m mrs = m0 / 2 ^ j /\
  ((2 ^ j | m0) -> shr_r mrs = false /\ shr_s mrs = false).

Lemma shr_1_shifted m0 j mrs :
  0 <= m0 -> 0 <= j -> shifted m0 j mrs -> shifted m0 (j + 1) (shr_1 mrs).
Proof.
  intros Hm0 Hj [Hm Hflags].
  assert (0 < 2 ^ j) as Hpow by (apply Z.pow_pos_nonneg; lia).
  assert (0 <= shr_m mrs) as Hnonneg by (rewrite Hm; apply Z.div_pos; lia).
  assert (m0 / 2 ^ (j + 1) = shr_m mrs / 2) as Hdiv.
  { rewrite Z.pow_add_r, Z.pow_1_r, <- Z.div_div, Hm by lia. reflexivity. }
  assert ((2 ^ (j + 1) | m0) ->
          shr_r mrs = false /\ shr_s mrs = false /\ Z.even (shr_m mrs) = true)
    as Hexact.
  { intros [k Hk]. rewrite Z.pow_add_r, Z.pow_1_r in Hk by lia.
    destruct Hflags as [Hr Hs]; [exists (k * 2); lia|].
    repeat split; try assumption.
    rewrite Hm. replace m0 with ((2 * k) * 2 ^ j) by lia.
    rewrite Z.div_mul by lia. apply Z.even_mul. }
  unfold shifted. rewrite Hdiv.
  destruct mrs as [m r s]. simpl in *.
  destruct m as [|[p|p|]|p]; simpl; try lia.
  - split; [reflexivity|]. intros H. destruct (Hexact H) as (-> & -> & _). auto.
  - split; [rewrite Pos2Z.inj_xI, Z.mul_comm, Z.div_add_l by lia; reflexivity|].
    intros H. destruct (Hexact H) as (_ & _ & Hev). discriminate Hev.
  - split; [rewrite Pos2Z.inj_xO, Z.mul_comm, Z.div_mul by lia; reflexivity|].
    intros H. destruct (Hexact H) as (-> & -> & _). auto.
  - split; [reflexivity|].
    intros H. destruct (Hexact H) as (_ & _ & Hev). discriminate Hev.
Qed.

Lemma shr_shifted m0 e n :
  0 <= m0 ->
  shifted m0 (Z.max n 0) (shr (Build_shr_record m0 false false) e n).1 /\
  (shr (Build_shr_record m0 false false) e n).2 = e + Z.max n 0.
Proof.
  intros Hm0.
  assert (shifted m0 0 (Build_shr_record m0 false false)) as Hstart.
  { split; simpl; [rewrite Z.div_1_r; reflexivity|auto]. }
  destruct n as [|p|p]; simpl.
  - split; [exact Hstart|lia].
  - split; [|rewrite Z.max_l by lia; reflexivity].
    rewrite Z.max_l by lia.
    apply (iter_pos_steps shr_1 (shifted m0)) with (j := 0); try lia; try assumption.
    intros j x Hj. apply shr_1_shifted; assumption.
  - split; [exact Hstart|lia].
Qed.

Lemma round_nearest_even_bounds m0 j mrs :
  shifted m0 j mrs ->
  shr_m mrs <= round_nearest_even (shr_m mrs) (loc_of_shr_record mrs)
            <= shr_m mrs + 1 /\
  ((2 ^ j | m0) ->
   round_nearest_even (shr_m mrs) (loc_of_shr_record mrs) = shr_m mrs).
Proof.
  intros [_ Hflags]. destruct mrs as [m r s]. simpl in *. split.
  - destruct r, s; simpl; try destruct (Z.even m); lia.
  - intros H. destruct (Hflags H) as [-> ->]. reflexivity.
Qed.

Lemma scale_pos m e : 0 < m -> emin <= e -> 0 < scale m e.
Proof.
  intros Hm He. apply Z.mul_pos_pos; [assumption|].
  apply Z.pow_pos_nonneg; lia.
Qed.

Lemma scale_shift m k e :
  0 <= k -> emin <= e -> scale (m * 2 ^ k) e = scale m (e + k).
Proof.
  intros Hk He. unfold scale.
  replace (e + k - emin) with (k + (e - emin)) by lia.
  rewrite Z.pow_add_r by lia. lia.
Qed.

Lemma scale_le_mono m m' e : emin <= e -> scale m e <= scale m' e <-> m <= m'.
Proof.
  intros He. unfold scale. symmetry. apply Z.mul_le_mono_pos_r.
  apply Z.pow_pos_nonneg; lia.
Qed.

Lemma scale_lt_digits p e :
  emin <= e -> scale (Zpos p) e < 2 ^ (Zpos (digits2_pos p) + e - emin).
Proof.
  intros He. unfold scale.
  replace (Zpos (digits2_pos p) + e - emin)
    with (Zpos (digits2_pos p) + (e - emin)) by lia.
  rewrite Z.pow_add_r by lia.
  apply Z.mul_lt_mono_pos_r; [apply Z.pow_pos_nonneg; lia|].
  apply digits2_pos_bounds.
Qed.

Lemma digits_of_scale_lt p e L :
  emin <= e -> scale (Zpos p) e < 2 ^ (L - emin) ->
  Zpos (digits2_pos p) + e <= L.
Proof.
  intros He Hlt.
  pose proof (scale_pos (Zpos p) e ltac:(lia) He) as Hpos.
  destruct (Z.lt_ge_cases (L - emin) 0) as [Hneg|Hnonneg].
  { rewrite Z.pow_neg_r in Hlt by assumption. lia. }
  assert (2 ^ (Zpos (digits2_pos p) - 1 + (e - emin)) <= scale (Zpos p) e) as Hlow.
  { rewrite Z.pow_add_r by lia. unfold scale.
    apply Z.mul_le_mono_nonneg_r; [apply Z.pow_nonneg; lia|].
    apply digits2_pos_bounds. }
  assert (Zpos (digits2_pos p) - 1 + (e - emin) < L - emin); [|lia].
  apply (Z.pow_lt_mono_r_iff 2); lia.
Qed.

Lemma digits2_pos_iter_xO m d :
  Zpos (digits2_pos (Pos.iter xO m d)) = Zpos (digits2_pos m) + Zpos d.
Proof.
  induction d as [|d IH] using Pos.peano_ind.
  - simpl. lia.
  - rewrite Pos.iter_succ. simpl digits2_pos. lia.
Qed.

Lemma shl_align_spec m e e' :
  (shl_align m e e').2 = Z.min e e' /\
  Zpos (shl_align m e e').1 = Zpos m * 2 ^ (e - Z.min e e') /\
  Zpos (digits2_pos (shl_align m e e').1) + (shl_align m e e').2 =
    Zpos (digits2_pos m) + e.
Proof.
  unfold shl_align. destruct (e' - e) as [|d|d] eqn:Hd; simpl.
  - rewrite Z.min_l by lia. rewrite Z.sub_diag. lia.
  - rewrite Z.min_l by lia. rewrite Z.sub_diag. lia.
  - rewrite Z.min_r by lia. rewrite iter_xO_pow, digits2_pos_iter_xO.
    replace (e - e') with (Zpos d) by lia. lia.
Qed.

Lemma fexp_mono x y : x <= y -> fexp prec emax x <= fexp prec emax y.
Proof. unfold fexp. lia. Qed.

Lemma fexp_emin x : emin <= fexp prec emax x.
Proof. unfold fexp. lia. Qed.

(** Rounding a positive number that is at most a binary64 number [y]
    gives zero or a positive number that is at most [y]: it neither
    overflows nor passes [y]. *)
Lemma binary_round_below p ez my ey :
  bounded prec emax my ey = true ->
  emin <= ez ->
  scale (Zpos p) ez <= scale (Zpos my) ey ->
  match binary_round prec emax false p ez with
  | S754_zero _ => True
  | S754_finite false m e => emin <= e /\ scale (Zpos m) e <= scale (Zpos my) ey
  | _ => False
  end.
Proof.
  intros Vy Hez Hle.
  pose proof (bounded_emin _ _ Vy) as Hey.
  assert (fexp prec emax (Zpos (digits2_pos my) + ey) = ey /\ ey <= emax - prec)
    as [Hcanon Hmax].
  { unfold bounded, canonical_mantissa in Vy.
    apply andb_prop in Vy as [Hc Hb]. split; [apply Z.eqb_eq, Hc|apply Z.leb_le, Hb]. }
  pose proof (scale_lt_digits my ey Hey) as Hbound.
  (* every number of magnitude at most [y] rounds at an exponent at most [ey] *)
  assert (forall q e, emin <= e -> scale (Zpos q) e <= scale (Zpos my) ey ->
            fexp prec emax (Zpos (digits2_pos q) + e) <= ey) as Hexp.
  { intros q e He Hq. rewrite <- Hcanon. apply fexp_mono.
    apply digits_of_scale_lt; [assumption|]. lia. }
  unfold binary_round.
  set (e1 := fexp prec emax (Zpos (digits2_pos p) + ez)).
  assert (e1 <= ey) as He1 by (apply Hexp; assumption).
  pose proof (fexp_emin (Zpos (digits2_pos p) + ez)) as He1min. fold e1 in He1min.
  destruct (shl_align_spec p ez e1) as (Hez' & Hmz & Hdig).
  destruct (shl_align p ez e1) as [mz ez']. simpl in Hez', Hmz, Hdig.
  assert (scale (Zpos mz) ez' = scale (Zpos p) ez) as Hsame.
  { rewrite Hmz, scale_shift by lia. f_equal. lia. }
  unfold binary_round_aux, shr_fexp. simpl Zdigits2. simpl shr_record_of_loc.
  rewrite Hdig. fold e1.
  destruct (shr_shifted (Zpos mz) ez' (e1 - ez') ltac:(lia)) as [Hshift He'].
  destruct (shr _ ez' (e1 - ez')) as [mrs' e']. simpl in Hshift, He'.
  assert (e' = e1) as -> by lia.
  set (n := Z.max (e1 - ez') 0) in *.
  assert (ez' + n = e1) as Hn by lia.
  destruct (round_nearest_even_bounds _ _ _ Hshift) as [Hround Hexact].
  set (m2 := round_nearest_even (shr_m mrs') (loc_of_shr_record mrs')) in *.
  destruct Hshift as [Hm1 _].
  assert (0 < 2 ^ n) as Hpow by (apply Z.pow_pos_nonneg; lia).
  assert (0 <= shr_m mrs') as Hm1pos by (rewrite Hm1; apply Z.div_pos; lia).
  (* the rounded mantissa, at [e1], is at most [y] *)
  assert (scale m2 e1 <= scale (Zpos my) ey) as Hm2.
  { replace (scale (Zpos my) ey) with (scale (Zpos my * 2 ^ (ey - e1)) e1)
      by (rewrite scale_shift by lia; f_equal; lia).
    apply scale_le_mono; [lia|].
    set (K := Zpos my * 2 ^ (ey - e1)).
    assert (Zpos mz <= K * 2 ^ n) as Hmz_le.
    { apply (scale_le_mono _ _ ez'); [lia|].
      rewrite scale_shift, Hn by lia. unfold K.
      rewrite scale_shift by lia. rewrite Hsame.
      replace (e1 + (ey - e1)) with ey by lia. exact Hle. }
    pose proof (Z.div_mod (Zpos mz) (2 ^ n) ltac:(lia)) as Hdm.
    pose proof (Z.mod_pos_bound (Zpos mz) (2 ^ n) Hpow) as Hmod.
    rewrite <- Hm1 in Hdm.
    destruct (Z.eq_dec (Zpos mz mod 2 ^ n) 0) as [Hzero|Hnonzero].
    - rewrite Hexact by (apply Z.mod_divide; lia). nia.
    - assert (shr_m mrs' < K) by nia. lia. }
  destruct (shr_shifted m2 e1 (fexp prec emax (Zdigits2 m2 + e1) - e1) ltac:(lia))
    as [[Hm3 _] He''].
  destruct (shr _ e1 (fexp prec emax (Zdigits2 m2 + e1) - e1)) as [mrs'' e''].
  simpl in Hm3, He''.
  set (n' := Z.max (fexp prec emax (Zdigits2 m2 + e1) - e1) 0) in *.
  assert (0 < 2 ^ n') as Hpow' by (apply Z.pow_pos_nonneg; lia).
  assert (0 <= shr_m mrs'') as Hm3pos by (rewrite Hm3; apply Z.div_pos; lia).
  destruct (shr_m mrs'') as [|m3|m3] eqn:Em3; [exact I| |lia].
  assert (0 < m2) as Hm2pos.
  { destruct (Z.eq_dec m2 0) as [Hz|Hz]; [|lia].
    rewrite Hz, Z.div_0_l in Hm3 by lia. discriminate Hm3. }
  assert (e'' <= ey) as He''le.
  { rewrite He''. unfold n'.
    destruct m2 as [|q|q]; try lia. simpl Zdigits2.
    pose proof (Hexp q e1 ltac:(lia) Hm2). lia. }
  replace (e'' <=? emax - prec) with true by (symmetry; apply Z.leb_le; lia).
  split; [lia|].
  etransitivity; [|exact Hm2].
  rewrite He'', <- scale_shift by lia.
  apply scale_le_mono; [lia|].
  rewrite Hm3. rewrite Z.mul_comm. apply Z.mul_div_le. lia.
Qed.

Lemma SFcompare_mag x y :
  valid_binary x = true -> valid_binary y = true -> small x -> small y ->
  SFcompare x y = Some (mag x ?= mag y).
Proof.
  intros Vx Vy Sx Sy.
  destruct x as [sx| | |[] mx ex], y as [sy| | |[] my ey];
    simpl in Sx, Sy; try contradiction; simpl in Vx, Vy; simpl SFcompare; simpl mag.
  - reflexivity.
  - pose proof (scale_pos (Zpos my) ey ltac:(lia) (bounded_emin _ _ Vy)).
    f_equal. symmetry. apply Z.compare_lt_iff. lia.
  - pose proof (scale_pos (Zpos mx) ex ltac:(lia) (bounded_emin _ _ Vx)).
    f_equal. symmetry. apply Z.compare_gt_iff. lia.
  - pose proof (bounded_emin _ _ Vx) as Hex.
    pose proof (bounded_emin _ _ Vy) as Hey.
    f_equal. symmetry.
    destruct (Z.compare_spec ex ey) as [Heq|Hlt|Hgt].
    + subst ey. rewrite Pos.compare_cont_spec. unfold Pos.switch_Eq.
      unfold scale.
      rewrite <- Zmult_compare_compat_r
        by (apply Z.lt_gt, Z.pow_pos_nonneg; lia).
      simpl. destruct (mx ?= my)%positive; reflexivity.
    + apply Z.compare_lt_iff.
      pose proof (bounded_exponent_lt _ _ _ _ Vx Vy Hlt) as H.
      replace (scale (Zpos my) ey) with (scale (Zpos my * 2 ^ (ey - ex)) ex)
        by (rewrite scale_shift by lia; f_equal; lia).
      unfold scale. apply Z.mul_lt_mono_pos_r; [apply Z.pow_pos_nonneg; lia|exact H].
    + apply Z.compare_gt_iff.
      pose proof (bounded_exponent_lt _ _ _ _ Vy Vx Hgt) as H.
      replace (scale (Zpos mx) ex) with (scale (Zpos mx * 2 ^ (ex - ey)) ey)
        by (rewrite scale_shift by lia; f_equal; lia).
      unfold scale. apply Z.mul_lt_mono_pos_r; [apply Z.pow_pos_nonneg; lia|exact H].
Qed.

(** Subtracting a positive number from a finite one that is not below it
    gives a finite number between zero and the minuend. *)
Lemma SFsub_below x y :
  valid_binary x = true -> valid_binary y = true -> small y ->
  x <> S754_nan -> SFleb x (S754_zero false) = false -> SFltb y x = false ->
  small (SF64sub y x) /\ mag (SF64sub y x) <= mag y.
Proof.
  intros Vx Vy Sy Hnan Hpos Hge.
  destruct x as [[]|[]| |[] mx ex]; try (cbv in Hpos; congruence);
    try congruence.
  { destruct y as [sy| | |[] my ey]; simpl in Sy; try contradiction;
      cbv in Hge; congruence. }
  assert (mag (S754_finite false mx ex) <= mag y) as Hle.
  { unfold SFltb in Hge.
    rewrite (SFcompare_mag y (S754_finite false mx ex)) in Hge by (assumption || exact I).
    destruct (Z.compare_spec (mag y) (mag (S754_finite false mx ex)));
      try congruence; lia. }
  destruct y as [sy| | |[] my ey]; simpl in Sy; try contradiction.
  { simpl in Vx. simpl in Hle.
    pose proof (scale_pos (Zpos mx) ex ltac:(lia) (bounded_emin _ _ Vx)). lia. }
  simpl in Vx, Vy, Hle.
  pose proof (bounded_emin _ _ Vx) as Hex.
  pose proof (bounded_emin _ _ Vy) as Hey.
  unfold SF64sub, SFsub. cbv zeta. unfold cond_Zopp.
  set (ez := Z.min ey ex).
  rewrite !shl_align_value by lia.
  assert (scale (Zpos my * 2 ^ (ey - ez)) ez = scale (Zpos my) ey) as Hy
    by (rewrite scale_shift by lia; f_equal; lia).
  assert (scale (Zpos mx * 2 ^ (ex - ez)) ez = scale (Zpos mx) ex) as Hx
    by (rewrite scale_shift by lia; f_equal; lia).
  assert (0 < Zpos mx * 2 ^ (ex - ez)) as Hxpos
    by (apply Z.mul_pos_pos; [lia|apply Z.pow_pos_nonneg; lia]).
  assert (Zpos mx * 2 ^ (ex - ez) <= Zpos my * 2 ^ (ey - ez)) as Hd
    by (apply (scale_le_mono _ _ ez); [lia|]; rewrite Hx, Hy; exact Hle).
  destruct (Zpos my * 2 ^ (ey - ez) - Zpos mx * 2 ^ (ex - ez)) as [|p|p] eqn:Ed;
    [| |lia]; simpl binary_normalize.
  - split; [exact I|]. simpl. apply Z.lt_le_incl, scale_pos; lia.
  - assert (scale (Zpos p) ez <= scale (Zpos my) ey) as Hp
      by (rewrite <- Ed, <- Hy; apply scale_le_mono; lia).
    pose proof (binary_round_below p ez my ey Vy ltac:(lia) Hp) as Hround.
    destruct (binary_round prec emax false p ez) as [| | |[] m e];
      try contradiction.
    + split; [exact I|]. simpl. apply Z.lt_le_incl, scale_pos; lia.
    + split; [exact I|]. apply Hround.
Qed.

End Rounding.

Section FundedFacts.

Lemma SFleb_mag x y :
  valid_binary x = true -> valid_binary y = true -> small x -> small y ->
  SFleb x y = (mag x <=? mag y)%Z.
Proof.
  intros Vx Vy Sx Sy. unfold SFleb. rewrite SFcompare_mag by assumption.
  unfold Z.leb. destruct (mag x ?= mag y)%Z; reflexivity.
Qed.

Lemma small_500 : small (Prim2SF 500).
Proof. vm_compute. exact I. Qed.

Lemma funded_spec (b : float) :
  funded b = true <->
  small (Prim2SF b) /\ (mag (Prim2SF b) <= mag (Prim2SF 500))%Z.
Proof.
  unfold funded.
  rewrite andb_true_iff, !FloatAxioms.leb_spec, Prim2SF_zero.
  pose proof (Prim2SF_valid b) as Vb. pose proof (Prim2SF_valid 500) as Vcap.
  pose proof small_500 as Scap.
  split.
  - intros [Hlow Hhigh].
    assert (small (Prim2SF b)) as Sb.
    { destruct (Prim2SF b) as [[]|[]| |[] m e]; try exact I;
        try (cbv in Hlow; congruence).
      destruct (Prim2SF 500) as [[]|[]| |[] m e]; simpl in Scap;
        try contradiction; cbv in Hhigh; congruence. }
    split; [exact Sb|].
    rewrite SFleb_mag in Hhigh by assumption. apply Z.leb_le, Hhigh.
  - intros [Sb Hmag]. split.
    + destruct (Prim2SF b) as [[]|[]| |[] m e]; simpl in Sb;
        try contradiction; reflexivity.
    + rewrite SFleb_mag by assumption. apply Z.leb_le, Hmag.
Qed.

Lemma is_nan_false (a : float) : is_nan a = false -> Prim2SF a <> S754_nan.
Proof.
  unfold is_nan. rewrite FloatAxioms.eqb_spec. intros H E.
  rewrite E in H. discriminate H.
Qed.

(** The subtraction of [PayPal.process_payment], on the path that
    reaches it. *)
Lemma float_sub_funded (a b : float) :
  funded b = true -> is_nan a = false ->
  (a <=? 0) = false -> (b <? a) = false ->
  funded (b - a) = true /\ (b - a <=? b) = true.
Proof.
  intros Hb Hnan Hpos Hge.
  apply funded_spec in Hb as [Sb Hcap].
  rewrite FloatAxioms.leb_spec, Prim2SF_zero in Hpos.
  rewrite FloatAxioms.ltb_spec in Hge.
  destruct (SFsub_below (Prim2SF a) (Prim2SF b)
              (Prim2SF_valid a) (Prim2SF_valid b) Sb
              (is_nan_false a Hnan) Hpos Hge) as [Ssub Hmag].
  rewrite <- sub_spec in Ssub, Hmag. split.
  - apply funded_spec. split; [exact Ssub|lia].
  - rewrite FloatAxioms.leb_spec, SFleb_mag
      by (apply Prim2SF_valid || assumption).
    apply Z.leb_le, Hmag.
Qed.

End FundedFacts.

(** * Further properties of the payment methods *)

(** ** The balance of a wallet *)

Lemma funded_le_refl (b : float) : funded b = true -> (b <=? b) = true.
Proof.
  intros [Sb _]%funded_spec.
  rewrite FloatAxioms.leb_spec, SFleb_mag by (apply Prim2SF_valid || assumption).
  apply Z.leb_refl.
Qed.

(** A wallet payment keeps a balance between 0 and 500 in that range
    and does not raise it, when the amount is not NaN. *)
Lemma PayPal_payment_keeps_funded (self : PayPal.t) (amount : float) (env : Env) :
  funded (PayPal.balance self) = true ->
  is_nan amount = false ->
  let self' := self_after (PayPal.process_payment amount env self) in
  funded (PayPal.balance self') = true /\
  (PayPal.balance self' <=? PayPal.balance self) = true.
Proof.
  intros Hfunded Hnan. cbv zeta.
  rewrite PayPal_process_payment_run. cbv zeta.
  destruct (amount <=? 0) eqn:Hle;
    [split; [exact Hfunded|apply funded_le_refl, Hfunded]|].
  destruct (PayPal.balance self <? amount) eqn:Hgt;
    [split; [exact Hfunded|apply funded_le_refl, Hfunded]|].
  exact (float_sub_funded _ _ Hfunded Hnan Hle Hgt).
Qed.

(** X1.  A wallet payment never raises the balance and never overdraws:
    on a wallet whose balance is between 0 and 500, a call with an amount
    that is not NaN leaves a balance that is again between 0 and 500 and
    is at most the balance before the call. *)
Theorem PayPal_balance_never_increases (self : PayPal.t) (amount : float) (env : Env) :
  funded (PayPal.balance self) = true ->
  is_nan amount = false ->
  let self' := self_after (PayPal.process_payment amount env self) in
  funded (PayPal.balance self') = true /\
  (PayPal.balance self' <=? PayPal.balance self) = true.
Proof.
  intros Hfunded Hnan. cbv zeta.
  destruct (PayPal_payment_keeps_funded self amount env Hfunded Hnan)
    as [Hkept Hle].
  split; [exact Hkept|exact Hle].
Qed.

Lemma PayPal_balance_never_increases_witness :
  let self := PayPal.init (lit "keanu@example.com") in
  let env := {| now := lit "2024-05-01 10:00:00"; pick := 0%fin |} in
  funded (PayPal.balance self) = true /\
  is_nan 120.5 = false /\
  PayPal.balance (self_after (PayPal.process_payment 120.5 env self)) = 379.5 /\
  (PayPal.balance (self_after (PayPal.process_payment 120.5 env self))
     <=? PayPal.balance self) = true.
Proof.
  cbv zeta. split; [reflexivity|]. split; [reflexivity|]. split; [reflexivity|].
  exact (proj2 (PayPal_balance_never_increases
                  (PayPal.init (lit "keanu@example.com")) 120.5
                  {| now := lit "2024-05-01 10:00:00"; pick := 0%fin |}
                  eq_refl eq_refl)).
Defined.

(** X2.  Whatever calls a fresh wallet receives, as long as no amount is
    NaN, its balance stays between 0 and the opening 500.00. *)
Theorem fresh_wallet_balance_in_range (email : str) (calls : list (float * Env)) :
  Forall (fun call => is_nan call.1 = false) calls ->
  let self := run_calls PayPal.process_payment calls (PayPal.init email) in
  (0 <=? PayPal.balance self) = true /\ (PayPal.balance self <=? 500) = true.
Proof.
  intros Hcalls. cbv zeta. apply andb_prop. change (funded (PayPal.balance
    (run_calls PayPal.process_payment calls (PayPal.init email))) = true).
  assert (funded (PayPal.balance (PayPal.init email)) = true) as Hstart
    by reflexivity.
  revert Hstart. generalize (PayPal.init email) as self.
  induction Hcalls as [|[amount env] calls Hnan _ IH]; intros self Hself.
  - exact Hself.
  - simpl run_calls. apply IH.
    apply PayPal_payment_keeps_funded; assumption.
Qed.

Lemma fresh_wallet_balance_in_range_witness :
  let env := {| now := lit "2024-05-01 10:00:00"; pick := 0%fin |} in
  let calls := [(200, env); (400, env); (-1, env); (infinity, env); (300, env)] in
  let self := run_calls PayPal.process_payment calls
                (PayPal.init (lit "keanu@example.com")) in
  Forall (fun call => is_nan call.1 = false) calls /\
  PayPal.balance self = 0 /\
  (0 <=? PayPal.balance self) = true /\ (PayPal.balance self <=? 500) = true.
Proof.
  cbv zeta.
  assert (Forall (fun call : float * Env => is_nan call.1 = false)
            [(200, {| now := lit "2024-05-01 10:00:00"; pick := 0%fin |});
             (400, {| now := lit "2024-05-01 10:00:00"; pick := 0%fin |});
             (-1, {| now := lit "2024-05-01 10:00:00"; pick := 0%fin |});
             (infinity, {| now := lit "2024-05-01 10:00:00"; pick := 0%fin |});
             (300, {| now := lit "2024-05-01 10:00:00"; pick := 0%fin |})])
    as Hcalls by (repeat constructor).
  split; [exact Hcalls|]. split; [reflexivity|].
  exact (fresh_wallet_balance_in_range (lit "keanu@example.com") _ Hcalls).
Defined.

(** ** Amounts that are not numbers *)

Lemma is_nan_true (b : float) : is_nan b = true <-> Prim2SF b = S754_nan.
Proof.
  unfold is_nan. rewrite FloatAxioms.eqb_spec, negb_true_iff. split.
  - intros H. destruct (Prim2SF b) eqn:E; try reflexivity;
      rewrite SFeqb_refl in H by congruence; discriminate H.
  - intros ->. reflexivity.
Qed.

Lemma ltb_nan_l (a b : float) : is_nan b = true -> (b <? a) = false.
Proof.
  rewrite is_nan_true, FloatAxioms.ltb_spec. intros ->. reflexivity.
Qed.

Lemma ltb_nan_r (b : float) : (b <? nan) = false.
Proof.
  rewrite FloatAxioms.ltb_spec. change (Prim2SF nan) with S754_nan.
  destruct (Prim2SF b) as [[]|[]| |[] m e]; reflexivity.
Qed.

Lemma sub_nan_l (a b : float) : is_nan b = true -> is_nan (b - a) = true.
Proof.
  rewrite !is_nan_true, sub_spec. intros ->. reflexivity.
Qed.

Lemma sub_nan_r (b : float) : is_nan (b - nan) = true.
Proof.
  rewrite is_nan_true, sub_spec. change (Prim2SF nan) with S754_nan.
  destruct (Prim2SF b) as [[]|[]| |[] m e]; reflexivity.
Qed.

(** X3.  An amount that is NaN passes both tests of a wallet: the
    payment is completed and the balance becomes NaN.  A wallet whose
    balance is NaN completes every payment whose amount is not [<= 0],
    whatever its size, and its balance stays NaN.  On a card that passes
    [validate_card], a NaN amount goes to the draw and is logged as it
    is. *)
Theorem nan_amount_is_accepted :
  (forall (self : PayPal.t) (env : Env),
      let r := PayPal.process_payment nan env self in
      result r = Return true /\
      is_nan (PayPal.balance (self_after r)) = true /\
      entry_status <$> last (history (self_after r)) = Some (lit "Completed")) /\
  (forall (self : PayPal.t) (amount : float) (env : Env),
      is_nan (PayPal.balance self) = true ->
      (amount <=? 0) = false ->
      let r := PayPal.process_payment amount env self in
      result r = Return true /\
      is_nan (PayPal.balance (self_after r)) = true /\
      entry_status <$> last (history (self_after r)) = Some (lit "Completed")) /\
  (forall (cc : CreditCard.t) (env : Env),
      result (CreditCard.validate_card env cc) = Return true ->
      let r := CreditCard.process_payment nan env cc in
      result r = Return (CreditCard.choices !!! pick env) /\
      entry_amount <$> last (history (self_after r)) = Some nan).
Proof.
  split; [|split].
  - intros self env. cbv zeta. rewrite PayPal_process_payment_run. cbv zeta.
    change (nan <=? 0) with false. rewrite ltb_nan_r.
    split; [reflexivity|]. split; [apply sub_nan_r|].
    unfold self_after, history. simpl. rewrite last_snoc. reflexivity.
  - intros self amount env Hbal Hpos. cbv zeta.
    rewrite PayPal_process_payment_run. cbv zeta.
    rewrite Hpos, (ltb_nan_l _ _ Hbal).
    split; [reflexivity|]. split; [apply sub_nan_l, Hbal|].
    unfold self_after, history. simpl. rewrite last_snoc. reflexivity.
  - intros cc env Hvalid. cbv zeta.
    rewrite validate_card_run in Hvalid. cbv zeta in Hvalid.
    unfold result in Hvalid. simpl in Hvalid. injection Hvalid as Hvalid.
    rewrite CreditCard_process_payment_run. cbv zeta.
    change (nan <=? 0) with false. rewrite Hvalid.
    split; [reflexivity|].
    unfold self_after, history. simpl. rewrite last_snoc. reflexivity.
Qed.

Lemma nan_amount_is_accepted_witness :
  let env := {| now := lit "2024-05-01 10:00:00"; pick := 0%fin |} in
  let poisoned := self_after (PayPal.process_payment nan env
                                (PayPal.init (lit "keanu@example.com"))) in
  is_nan (PayPal.balance poisoned) = true /\
  (infinity <=? 0) = false /\
  result (PayPal.process_payment infinity env poisoned) = Return true.
Proof.
  cbv zeta. split; [reflexivity|]. split; [reflexivity|].
  exact (proj1 (proj1 (proj2 nan_amount_is_accepted)
                  (self_after (PayPal.process_payment nan
                     {| now := lit "2024-05-01 10:00:00"; pick := 0%fin |}
                     (PayPal.init (lit "keanu@example.com"))))
                  infinity
                  {| now := lit "2024-05-01 10:00:00"; pick := 0%fin |}
                  eq_refl eq_refl)).
Defined.

(** ** What the log and the console show *)

(** X4.  The value returned agrees with the record appended: a card
    payment logs "Failed", "Declined" or "Approved" and returns true
    exactly when it logs "Approved"; a wallet payment logs "Failed",
    "Insufficient Funds" or "Completed" and returns true exactly when it
    logs "Completed". *)
Theorem result_matches_status :
  (forall (cc : CreditCard.t) (amount : float) (env : Env),
      let r := CreditCard.process_payment amount env cc in
      exists (b : bool) (e : entry),
        result r = Return b /\
        last (history (self_after r)) = Some e /\
        (entry_status e = lit "Failed" \/ entry_status e = lit "Declined" \/
         entry_status e = lit "Approved") /\
        (b = true <-> entry_status e = lit "Approved")) /\
  (forall (pp : PayPal.t) (amount : float) (env : Env),
      let r := PayPal.process_payment amount env pp in
      exists (b : bool) (e : entry),
        result r = Return b /\
        last (history (self_after r)) = Some e /\
        (entry_status e = lit "Failed" \/
         entry_status e = lit "Insufficient Funds" \/
         entry_status e = lit "Completed") /\
        (b = true <-> entry_status e = lit "Completed")).
Proof.
  split.
  - intros cc amount env. cbv zeta.
    rewrite CreditCard_process_payment_run. cbv zeta.
    destruct (amount <=? 0); [|destruct (_ && _);
      [destruct (CreditCard.choices !!! pick env)|]];
      eexists; eexists;
      (split; [reflexivity|]);
      (split; [unfold self_after, history; simpl; apply last_snoc|]);
      simpl; (split; [auto|]);
      (split; [try reflexivity; discriminate|try reflexivity; intros H; vm_compute in H; discriminate H]).
  - intros pp amount env. cbv zeta.
    rewrite PayPal_process_payment_run. cbv zeta.
    destruct (amount <=? 0); [|destruct (_ <? _)];
      eexists; eexists;
      (split; [reflexivity|]);
      (split; [unfold self_after, history; simpl; apply last_snoc|]);
      simpl; (split; [auto|]);
      (split; [try reflexivity; discriminate|try reflexivity; intros H; vm_compute in H; discriminate H]).
Qed.

(** X5.  The last line that a payment prints is the log line of the
    record it appended: the timestamp of the record in brackets, its
    method, a dash, its amount in dollars with two decimals, an arrow
    and its status.  The record keeps the amount as it was given; the
    line shows it rounded to the cent. *)
Theorem last_line_is_the_log_line :
  (forall (cc : CreditCard.t) (amount : float) (env : Env),
      let r := CreditCard.process_payment amount env cc in
      exists e : entry,
        last (history (self_after r)) = Some e /\
        entry_amount e = amount /\
        last (lines (output r)) =
          Some (lit "[" ++ entry_timestamp e ++ lit "] " ++ entry_method e ++
                lit " " ++ [8212%N] ++ lit " $" ++ format_2f (entry_amount e) ++
                lit " " ++ [8594%N] ++ lit " " ++ entry_status e)) /\
  (forall (pp : PayPal.t) (amount : float) (env : Env),
      let r := PayPal.process_payment amount env pp in
      exists e : entry,
        last (history (self_after r)) = Some e /\
        entry_amount e = amount /\
        last (lines (output r)) =
          Some (lit "[" ++ entry_timestamp e ++ lit "] " ++ entry_method e ++
                lit " " ++ [8212%N] ++ lit " $" ++ format_2f (entry_amount e) ++
                lit " " ++ [8594%N] ++ lit " " ++ entry_status e)).
Proof.
  split.
  - intros cc amount env. cbv zeta.
    rewrite CreditCard_process_payment_run. cbv zeta.
    destruct (amount <=? 0); [|destruct (_ && _)];
      eexists; (split; [unfold self_after, history; simpl; apply last_snoc|]);
      split; reflexivity.
  - intros pp amount env. cbv zeta.
    rewrite PayPal_process_payment_run. cbv zeta.
    destruct (amount <=? 0); [|destruct (_ <? _)];
      eexists; (split; [unfold self_after, history; simpl; apply last_snoc|]);
      split; reflexivity.
Qed.

(** X6.  A wallet payment pauses exactly when it succeeds, once and for
    one second; a refused wallet payment and every card payment return
    without pausing. *)
Theorem pause_only_on_success :
  (forall (pp : PayPal.t) (amount : float) (env : Env),
      let r := PayPal.process_payment amount env pp in
      (result r = Return true /\ sleeps (output r) = [1%Z]) \/
      (result r = Return false /\ sleeps (output r) = [])) /\
  (forall (cc : CreditCard.t) (amount : float) (env : Env),
      sleeps (output (CreditCard.process_payment amount env cc)) = []).
Proof.
  split.
  - intros pp amount env. cbv zeta.
    rewrite PayPal_process_payment_run. cbv zeta.
    destruct (amount <=? 0); [|destruct (_ <? _)];
      [right|right|left]; split; reflexivity.
  - intros cc amount env.
    rewrite CreditCard_process_payment_run. cbv zeta.
    destruct (amount <=? 0); [|destruct (_ && _)]; reflexivity.
Qed.

(** X7.  A card payment uses the card number only through the answer
    of [validate_card] and through its last four characters: two cards
    that agree on these and on their other attributes give, for the same
    amount, clock and draw, the same result, the same printed lines and
    the same log. *)
Theorem card_number_shows_through_last_four
    (cc1 cc2 : CreditCard.t) (amount : float) (env : Env) :
  CreditCard.super cc1 = CreditCard.super cc2 ->
  CreditCard.holder_name cc1 = CreditCard.holder_name cc2 ->
  last4 (CreditCard.card_number cc1) = last4 (CreditCard.card_number cc2) ->
  result (CreditCard.validate_card env cc1) =
    result (CreditCard.validate_card env cc2) ->
  let r1 := CreditCard.process_payment amount env cc1 in
  let r2 := CreditCard.process_payment amount env cc2 in
  result r1 = result r2 /\
  output r1 = output r2 /\
  lines (output r1) = lines (output r2) /\
  history (self_after r1) = history (self_after r2).
Proof.
  intros Hsuper Hholder Hending Hvalid. cbv zeta.
  rewrite !validate_card_run in Hvalid. cbv zeta in Hvalid.
  unfold result in Hvalid. simpl in Hvalid. injection Hvalid as Hvalid.
  assert (output (CreditCard.process_payment amount env cc1) =
          output (CreditCard.process_payment amount env cc2) /\
          result (CreditCard.process_payment amount env cc1) =
          result (CreditCard.process_payment amount env cc2) /\
          history (self_after (CreditCard.process_payment amount env cc1)) =
          history (self_after (CreditCard.process_payment amount env cc2)))
    as (Hout & Hres & Hlog).
  { rewrite !CreditCard_process_payment_run. cbv zeta.
    rewrite <- Hsuper, <- Hholder, <- Hending, <- Hvalid.
    destruct (amount <=? 0); [|destruct (_ && _)];
      unfold history; simpl; rewrite <- ?Hsuper; repeat split. }
  rewrite Hout. repeat split; assumption.
Qed.

Lemma card_number_shows_through_last_four_witness :
  let cc1 := CreditCard.init (lit "4111111111111111") (lit "A. Smith") None in
  let cc2 := CreditCard.init (lit "5500005555551111") (lit "A. Smith") None in
  let env := {| now := lit "2024-05-01 10:00:00"; pick := 2%fin |} in
  CreditCard.card_number cc1 <> CreditCard.card_number cc2 /\
  last4 (CreditCard.card_number cc1) = last4 (CreditCard.card_number cc2) /\
  lines (output (CreditCard.process_payment 42 env cc1)) =
    lines (output (CreditCard.process_payment 42 env cc2)).
Proof.
  cbv zeta. split; [discriminate|]. split; [reflexivity|].
  exact (proj1 (proj2 (proj2
           (card_number_shows_through_last_four
              (CreditCard.init (lit "4111111111111111") (lit "A. Smith") None)
              (CreditCard.init (lit "5500005555551111") (lit "A. Smith") None)
              42 {| now := lit "2024-05-01 10:00:00"; pick := 2%fin |}
              eq_refl eq_refl eq_refl eq_refl)))).
Defined.

(** ** How calls compose *)

Lemma CreditCard_payment_keeps_card (cc : CreditCard.t) (amount : float) (env : Env) :
  let cc' := self_after (CreditCard.process_payment amount env cc) in
  CreditCard.card_number cc' = CreditCard.card_number cc /\
  CreditCard.holder_name cc' = CreditCard.holder_name cc /\
  PaymentMethod.method_name (CreditCard.super cc') =
    PaymentMethod.method_name (CreditCard.super cc).
Proof.
  cbv zeta. rewrite CreditCard_process_payment_run. cbv zeta.
  destruct (amount <=? 0); [|destruct (_ && _)]; repeat split.
Qed.

Lemma CreditCard_calls_keep_card (calls : list (float * Env)) (cc : CreditCard.t) :
  let cc' := run_calls CreditCard.process_payment calls cc in
  CreditCard.card_number cc' = CreditCard.card_number cc /\
  CreditCard.holder_name cc' = CreditCard.holder_name cc /\
  PaymentMethod.method_name (CreditCard.super cc') =
    PaymentMethod.method_name (CreditCard.super cc).
Proof.
  cbv zeta. revert cc. induction calls as [|[amount env] calls IH]; intros cc.
  - repeat split.
  - simpl run_calls.
    destruct (IH (self_after (CreditCard.process_payment amount env cc)))
      as (-> & -> & ->).
    apply CreditCard_payment_keeps_card.
Qed.

(** X8.  Earlier payments do not influence a card: after any calls,
    the card is as valid as before, and a payment returns and prints
    what it would have on the card before them. *)
Theorem card_payments_do_not_interfere
    (cc : CreditCard.t) (calls : list (float * Env)) (amount : float) (env : Env) :
  let later := run_calls CreditCard.process_payment calls cc in
  result (CreditCard.validate_card env later) =
    result (CreditCard.validate_card env cc) /\
  result (CreditCard.process_payment amount env later) =
    result (CreditCard.process_payment amount env cc) /\
  output (CreditCard.process_payment amount env later) =
    output (CreditCard.process_payment amount env cc).
Proof.
  cbv zeta.
  destruct (CreditCard_calls_keep_card calls cc) as (Hnumber & Hholder & Hname).
  rewrite !CreditCard_process_payment_run, !validate_card_run. cbv zeta.
  rewrite Hnumber, Hholder, Hname.
  split; [reflexivity|].
  destruct (amount <=? 0); [|destruct (_ && _)]; split; reflexivity.
Qed.

(** X9.  A refused wallet payment leaves no trace but its record: the
    balance is unchanged, and any following payment returns, prints and
    leaves the balance as it would have without the refused one. *)
Theorem refused_wallet_payment_changes_nothing_later
    (pp : PayPal.t) (refused : float) (env0 : Env) (amount : float) (env : Env) :
  result (PayPal.process_payment refused env0 pp) = Return false ->
  let pp' := self_after (PayPal.process_payment refused env0 pp) in
  PayPal.balance pp' = PayPal.balance pp /\
  result (PayPal.process_payment amount env pp') =
    result (PayPal.process_payment amount env pp) /\
  PayPal.balance (self_after (PayPal.process_payment amount env pp')) =
    PayPal.balance (self_after (PayPal.process_payment amount env pp)) /\
  output (PayPal.process_payment amount env pp') =
    output (PayPal.process_payment amount env pp).
Proof.
  cbv zeta. intros Hrefused.
  assert (PayPal.balance (self_after (PayPal.process_payment refused env0 pp)) =
            PayPal.balance pp /\
          PayPal.email (self_after (PayPal.process_payment refused env0 pp)) =
            PayPal.email pp /\
          PaymentMethod.method_name
            (PayPal.super (self_after (PayPal.process_payment refused env0 pp))) =
            PaymentMethod.method_name (PayPal.super pp))
    as (Hbal & Hemail & Hname).
  { revert Hrefused. rewrite PayPal_process_payment_run. cbv zeta.
    destruct (refused <=? 0); [|destruct (_ <? _)];
      intros H; try discriminate H; repeat split. }
  split; [exact Hbal|].
  rewrite !(PayPal_process_payment_run amount env). cbv zeta.
  rewrite Hbal, Hemail, Hname.
  destruct (amount <=? 0); [|destruct (_ <? _)]; repeat split; exact Hbal.
Qed.

Lemma refused_wallet_payment_changes_nothing_later_witness :
  let env := {| now := lit "2024-05-01 10:00:00"; pick := 0%fin |} in
  let pp := PayPal.init (lit "keanu@example.com") in
  result (PayPal.process_payment 600 env pp) = Return false /\
  result (PayPal.process_payment 450
            env (self_after (PayPal.process_payment 600 env pp))) = Return true /\
  PayPal.balance
    (self_after (PayPal.process_payment 450
                   env (self_after (PayPal.process_payment 600 env pp)))) = 50.
Proof.
  cbv zeta. split; [reflexivity|].
  destruct (refused_wallet_payment_changes_nothing_later
              (PayPal.init (lit "keanu@example.com")) 600
              {| now := lit "2024-05-01 10:00:00"; pick := 0%fin |} 450
              {| now := lit "2024-05-01 10:00:00"; pick := 0%fin |} eq_refl)
    as (_ & Hres & Hbal & _).
  split; [rewrite Hres; reflexivity|rewrite Hbal; reflexivity].
Defined.

(** ** Fresh objects *)

Lemma PayPal_payment_keeps_name (pp : PayPal.t) (amount : float) (env : Env) :
  PaymentMethod.method_name
    (PayPal.super (self_after (PayPal.process_payment amount env pp))) =
  PaymentMethod.method_name (PayPal.super pp).
Proof.
  rewrite PayPal_process_payment_run. cbv zeta.
  destruct (amount <=? 0); [|destruct (_ <? _)]; reflexivity.
Qed.

Lemma CreditCard_payment_entry (cc : CreditCard.t) (amount : float) (env : Env) :
  exists e : entry,
    history (self_after (CreditCard.process_payment amount env cc)) =
      history cc ++ [e] /\
    entry_method e = PaymentMethod.method_name (CreditCard.super cc).
Proof.
  rewrite CreditCard_process_payment_run. cbv zeta.
  destruct (amount <=? 0); [|destruct (_ && _)]; eexists; split; reflexivity.
Qed.

Lemma PayPal_payment_entry (pp : PayPal.t) (amount : float) (env : Env) :
  exists e : entry,
    history (self_after (PayPal.process_payment amount env pp)) =
      history pp ++ [e] /\
    entry_method e = PaymentMethod.method_name (PayPal.super pp).
Proof.
  rewrite PayPal_process_payment_run. cbv zeta.
  destruct (amount <=? 0); [|destruct (_ <? _)]; eexists; split; reflexivity.
Qed.

(** X10.  A fresh card or wallet has an empty log: after any calls its
    log holds exactly one record per call, and each record names the
    method, "Credit Card" or "PayPal". *)
Theorem fresh_object_history :
  (forall (card_number holder_name : str) (expiration_date : option str)
          (calls : list (float * Env)),
      let cc := run_calls CreditCard.process_payment calls
                  (CreditCard.init card_number holder_name expiration_date) in
      length (history cc) = length calls /\
      Forall (fun e => entry_method e = lit "Credit Card") (history cc)) /\
  (forall (email : str) (calls : list (float * Env)),
      let pp := run_calls PayPal.process_payment calls (PayPal.init email) in
      length (history pp) = length calls /\
      Forall (fun e => entry_method e = lit "PayPal") (history pp)).
Proof.
  split.
  - intros card_number holder_name expiration_date calls. cbv zeta.
    set (cc0 := CreditCard.init card_number holder_name expiration_date).
    assert (forall cc : CreditCard.t,
              PaymentMethod.method_name (CreditCard.super cc) = lit "Credit Card" ->
              Forall (fun e => entry_method e = lit "Credit Card") (history cc) ->
              let cc' := run_calls CreditCard.process_payment calls cc in
              length (history cc') = (length (history cc) + length calls)%nat /\
              Forall (fun e => entry_method e = lit "Credit Card") (history cc'))
      as Hrun.
    { induction calls as [|[amount env] calls IH]; intros cc Hname Hall.
      - simpl. split; [lia|exact Hall].
      - simpl run_calls.
        destruct (CreditCard_payment_entry cc amount env) as (e & He & Hmethod).
        destruct (CreditCard_payment_keeps_card cc amount env) as (_ & _ & Hkeep).
        destruct (IH (self_after (CreditCard.process_payment amount env cc)))
          as [Hlen Hforall].
        + rewrite Hkeep. exact Hname.
        + rewrite He. apply Forall_app. split; [exact Hall|].
          constructor; [congruence|constructor].
        + split; [|exact Hforall].
          rewrite Hlen, He, length_app. simpl. lia. }
    apply (Hrun cc0); [reflexivity|constructor].
  - intros email calls. cbv zeta.
    assert (forall pp : PayPal.t,
              PaymentMethod.method_name (PayPal.super pp) = lit "PayPal" ->
              Forall (fun e => entry_method e = lit "PayPal") (history pp) ->
              let pp' := run_calls PayPal.process_payment calls pp in
              length (history pp') = (length (history pp) + length calls)%nat /\
              Forall (fun e => entry_method e = lit "PayPal") (history pp'))
      as Hrun.
    { induction calls as [|[amount env] calls IH]; intros pp Hname Hall.
      - simpl. split; [lia|exact Hall].
      - simpl run_calls.
        destruct (PayPal_payment_entry pp amount env) as (e & He & Hmethod).
        destruct (IH (self_after (PayPal.process_payment amount env pp)))
          as [Hlen Hforall].
        + rewrite PayPal_payment_keeps_name. exact Hname.
        + rewrite He. apply Forall_app. split; [exact Hall|].
          constructor; [congruence|constructor].
        + split; [|exact Hforall].
          rewrite Hlen, He, length_app. simpl. lia. }
    apply (Hrun (PayPal.init email)); [reflexivity|constructor].
Qed.

(** ** An emptied wallet *)

Lemma SFsub_self x : small x -> SF64sub x x = S754_zero false.
Proof.
  destruct x as [[]| | |[] m e]; simpl; try contradiction; intros _;
    try reflexivity.
  unfold SF64sub, SFsub. cbv zeta. rewrite Z.sub_diag. reflexivity.
Qed.

Lemma float_sub_self (b : float) : funded b = true -> b - b = 0.
Proof.
  intros [Sb _]%funded_spec. apply Prim2SF_inj.
  rewrite sub_spec, Prim2SF_zero. apply SFsub_self, Sb.
Qed.

(** X11.  Paying exactly the balance empties the wallet: on a wallet
    with a positive balance of at most 500, the payment succeeds and
    leaves exactly 0, after which every positive amount is refused with
    "Insufficient Funds". *)
Theorem paying_the_balance_empties_the_wallet (self : PayPal.t) (env : Env) :
  funded (PayPal.balance self) = true ->
  (0 <? PayPal.balance self) = true ->
  let r := PayPal.process_payment (PayPal.balance self) env self in
  result r = Return true /\
  PayPal.balance (self_after r) = 0 /\
  forall (amount : float) (env' : Env),
    (0 <? amount) = true ->
    let r' := PayPal.process_payment amount env' (self_after r) in
    result r' = Return false /\
    entry_status <$> last (history (self_after r')) =
      Some (lit "Insufficient Funds").
Proof.
  intros Hfunded Hpos.
  assert (PayPal.process_payment (PayPal.balance self) env self =
          (Return true,
           PaymentMethod.logged
             (Entry (PaymentMethod.method_name (PayPal.super self))
                (PayPal.balance self) (lit "Completed") (now env))
             (PayPal.set_balance 0 self),
           [Print (PayPalConnecting (PayPal.email self)); Sleep 1;
            Print (PayPalProcessed (PayPal.balance self) 0);
            Print (Logged (now env) (PaymentMethod.method_name (PayPal.super self))
                     (PayPal.balance self) (lit "Completed"))])) as Hrun.
  { rewrite PayPal_process_payment_run. cbv zeta.
    rewrite (float_pos_not_le _ Hpos).
    rewrite (float_le_not_gt _ _ (funded_le_refl _ Hfunded)).
    rewrite (float_sub_self _ Hfunded). reflexivity. }
  cbv zeta. rewrite Hrun. split; [reflexivity|]. split; [reflexivity|].
  intros amount env' Hamount.
  rewrite PayPal_process_payment_run. cbv zeta.
  rewrite (float_pos_not_le _ Hamount).
  change (PayPal.balance (self_after _)) with 0. rewrite Hamount.
  split; [reflexivity|].
  unfold self_after, history. simpl. rewrite last_snoc. reflexivity.
Qed.

Lemma paying_the_balance_empties_the_wallet_witness :
  let env := {| now := lit "2024-05-01 10:00:00"; pick := 0%fin |} in
  let self := self_after (PayPal.process_payment 125.25 env
                            (PayPal.init (lit "keanu@example.com"))) in
  funded (PayPal.balance self) = true /\
  (0 <? PayPal.balance self) = true /\
  PayPal.balance self = 374.75 /\
  PayPal.balance (self_after (PayPal.process_payment 374.75 env self)) = 0 /\
  result (PayPal.process_payment 0.25
            env (self_after (PayPal.process_payment 374.75 env self))) =
    Return false.
Proof.
  cbv zeta. split; [reflexivity|]. split; [reflexivity|]. split; [reflexivity|].
  destruct (paying_the_balance_empties_the_wallet
              (self_after (PayPal.process_payment 125.25
                 {| now := lit "2024-05-01 10:00:00"; pick := 0%fin |}
                 (PayPal.init (lit "keanu@example.com"))))
              {| now := lit "2024-05-01 10:00:00"; pick := 0%fin |}
              eq_refl eq_refl) as (_ & Hzero & Hlater).
  split; [exact Hzero|].
  exact (proj1 (Hlater 0.25
                  {| now := lit "2024-05-01 10:00:00"; pick := 0%fin |} eq_refl)).
Defined.

(** ** When a payment succeeds *)

Lemma SFcompare_total x y :
  x <> S754_nan -> y <> S754_nan -> SFcompare x y <> None.
Proof.
  destruct x as [[]|[]| |[] mx ex], y as [[]|[]| |[] my ey]; simpl; congruence.
Qed.

Lemma float_not_le_gt (a b : float) :
  is_nan a = false -> is_nan b = false -> (a <=? b) = false -> (b <? a) = true.
Proof.
  intros Ha%is_nan_false Hb%is_nan_false.
  rewrite FloatAxioms.leb_spec, FloatAxioms.ltb_spec.
  unfold SFleb, SFltb. rewrite (SFcompare_antisym (Prim2SF a) (Prim2SF b)).
  pose proof (SFcompare_total _ _ Ha Hb) as Htotal.
  destruct (SFcompare (Prim2SF a) (Prim2SF b)) as [[]|]; simpl; congruence.
Qed.

Lemma float_not_gt_le (a b : float) :
  is_nan a = false -> is_nan b = false -> (b <? a) = false -> (a <=? b) = true.
Proof.
  intros Ha%is_nan_false Hb%is_nan_false.
  rewrite FloatAxioms.leb_spec, FloatAxioms.ltb_spec.
  unfold SFleb, SFltb. rewrite (SFcompare_antisym (Prim2SF a) (Prim2SF b)).
  pose proof (SFcompare_total _ _ Ha Hb) as Htotal.
  destruct (SFcompare (Prim2SF a) (Prim2SF b)) as [[]|]; simpl; congruence.
Qed.

(** X12.  A wallet payment succeeds only when it is covered: if the
    call returns true and neither the amount nor the balance is NaN, the
    amount is positive and at most the balance.  A card payment returns
    true only when the amount is not [<= 0], the card passes
    [validate_card] and the draw is a success. *)
Theorem success_only_when_covered :
  (forall (pp : PayPal.t) (amount : float) (env : Env),
      result (PayPal.process_payment amount env pp) = Return true ->
      is_nan amount = false ->
      is_nan (PayPal.balance pp) = false ->
      (0 <? amount) = true /\ (amount <=? PayPal.balance pp) = true) /\
  (forall (cc : CreditCard.t) (amount : float) (env : Env),
      result (CreditCard.process_payment amount env cc) = Return true ->
      (amount <=? 0) = false /\
      result (CreditCard.validate_card env cc) = Return true /\
      CreditCard.choices !!! pick env = true).
Proof.
  split.
  - intros pp amount env Hres Hamount Hbal.
    rewrite PayPal_process_payment_run in Hres. cbv zeta in Hres.
    destruct (amount <=? 0) eqn:Hle; [discriminate Hres|].
    destruct (PayPal.balance pp <? amount) eqn:Hgt; [discriminate Hres|].
    split.
    + apply float_not_le_gt; [assumption|reflexivity|assumption].
    + apply float_not_gt_le; assumption.
  - intros cc amount env Hres.
    rewrite CreditCard_process_payment_run in Hres. cbv zeta in Hres.
    rewrite validate_card_run. cbv zeta.
    destruct (amount <=? 0); [discriminate Hres|].
    destruct (_ && _); [|discriminate Hres].
    unfold result in Hres. simpl in Hres. injection Hres as Hres.
    repeat split. exact Hres.
Qed.

Lemma success_only_when_covered_witness :
  let env := {| now := lit "2024-05-01 10:00:00"; pick := 0%fin |} in
  let pp := PayPal.init (lit "keanu@example.com") in
  result (PayPal.process_payment 499.5 env pp) = Return true /\
  is_nan 499.5 = false /\
  is_nan (PayPal.balance pp) = false /\
  (0 <? 499.5) = true /\ (499.5 <=? PayPal.balance pp) = true.
Proof.
  cbv zeta. split; [reflexivity|]. split; [reflexivity|]. split; [reflexivity|].
  exact (proj1 success_only_when_covered
           (PayPal.init (lit "keanu@example.com")) 499.5
           {| now := lit "2024-05-01 10:00:00"; pick := 0%fin |}
           eq_refl eq_refl eq_refl).
Defined.

(** ** A log line that the console refuses *)

(** X13.  [log_transaction] appends before it prints.  On a console with
    the ASCII encoding every call of it raises UnicodeEncodeError, its
    log line holding a dash and an arrow, and the record is in the log
    all the same.  A wallet payment that is covered, whose first two
    lines are written and whose log line is refused, raises after it has
    charged the balance and appended its "Completed" record. *)
Theorem refused_log_line_keeps_the_record :
  (forall (self : PaymentMethod.t) (amount : float) (status : str) (env : Env),
      let r := Console.log_transaction Console.ascii amount status env self in
      result r = Raise UnicodeEncodeError /\
      output r = [] /\
      history (self_after r) =
        history self ++
        [Entry (PaymentMethod.method_name self) amount status (now env)]) /\
  (forall (con : Console.t) (pp : PayPal.t) (amount : float) (env : Env),
      let name := PaymentMethod.method_name (PayPal.super pp) in
      let remaining := PayPal.balance pp - amount in
      (amount <=? 0) = false ->
      (PayPal.balance pp <? amount) = false ->
      Console.accepts con (render (PayPalConnecting (PayPal.email pp))) = true ->
      Console.accepts con (render (PayPalProcessed amount remaining)) = true ->
      Console.accepts con
        (render (Logged (now env) name amount (lit "Completed"))) = false ->
      let r := Console.PayPal_process_payment con amount env pp in
      result r = Raise UnicodeEncodeError /\
      PayPal.balance (self_after r) = remaining /\
      history (self_after r) =
        history pp ++ [Entry name amount (lit "Completed") (now env)] /\
      output r =
        [Print (PayPalConnecting (PayPal.email pp)); Sleep 1;
         Print (PayPalProcessed amount remaining)]).
Proof.
  split.
  - intros self amount status env. cbv zeta.
    pose proof (proj1 (log_on_console Console.ascii amount status env) self)
      as Hrun.
    cbv zeta in Hrun.
    assert (writes_all Console.ascii
              (output (PaymentMethod.log_transaction amount status env self)) =
            false) as Hrefused.
    { destruct self as [name log].
      unfold PaymentMethod.log_transaction, print. run_console.
      rewrite ascii_refuses_log_line. reflexivity. }
    rewrite Hrefused in Hrun. rewrite Hrun.
    destruct self as [name log]. repeat split.
  - intros con pp amount env name remaining Hpos Hcovered Hline1 Hline2 Hline3.
    subst name remaining. cbv zeta.
    destruct pp as [[name log] email bal].
    cbn [PayPal.email PayPal.balance PayPal.super PaymentMethod.method_name] in *.
    unfold Console.PayPal_process_payment. rewrite Hpos.
    run_console. rewrite Hcovered. run_console.
    rewrite Hline1. run_console. rewrite Hline2. run_console.
    rewrite Hline3. repeat split.
Qed.

Lemma refused_log_line_keeps_the_record_witness :
  let env := {| now := lit "2024-05-01 10:00:00"; pick := 0%fin |} in
  let pp := PayPal.init (lit "keanu@example.com") in
  let r := Console.PayPal_process_payment Console.ascii 120.5 env pp in
  (120.5 <=? 0) = false /\
  (PayPal.balance pp <? 120.5) = false /\
  result r = Raise UnicodeEncodeError /\
  PayPal.balance (self_after r) = 379.5 /\
  length (history (self_after r)) = 1%nat.
Proof.
  cbv zeta. split; [reflexivity|]. split; [reflexivity|].
  destruct (proj2 refused_log_line_keeps_the_record Console.ascii
              (PayPal.init (lit "keanu@example.com")) 120.5
              {| now := lit "2024-05-01 10:00:00"; pick := 0%fin |}
              eq_refl eq_refl eq_refl eq_refl eq_refl)
    as (Hres & Hbal & Hlog & _).
  split; [exact Hres|]. split; [rewrite Hbal; reflexivity|].
  rewrite Hlog. reflexivity.
Defined.
